(** * Hoysala: the record base abstraction of [core/models.py]

    A shallow embedding of [BaseModel] (soft deletion, external ids and
    audit logging), of its two managers and of the helpers
    [generate_ext] / [generate_unique_ext].

    The database is explicit state: one table per concrete model class
    (the base class is abstract, so each class owns its table and its
    own [unique] index on [ext_id]), the [django_admin_log] table, the
    content-type ids, a clock for [timezone.now()], the random source of
    [random.choice] and the interpreter's recursion limit.  Python
    exceptions are a [Raise] outcome that keeps the state reached.

    Timestamps are clock readings, and every reading moves the clock on;
    a user is a row of [auth_user] known by its key; a queryset is the
    list it evaluates to in the current database. *)

From stdpp Require Import base option list gmap strings sorting pretty.

(** ** Outcomes and the state-and-exception monad *)

Inductive exn :=
  | ValueError (msg : string)
  | AttributeError (msg : string)
  | IntegrityError (msg : string)
  | IndexError (msg : string)
  | RecursionError.

Inductive result (A : Type) :=
  | Ok (a : A)
  | Raise (e : exn).
Arguments Ok {A} a.
Arguments Raise {A} e.

Definition M (S A : Type) : Type := S → result A * S.

Global Instance M_ret {S} : MRet (M S) := λ A a s, (Ok a, s).
Global Instance M_bind {S} : MBind (M S) := λ A B f m s,
  match m s with
  | (Ok a, s') => f a s'
  | (Raise e, s') => (Raise e, s')
  end.

Definition throw {S A} (e : exn) : M S A := λ s, (Raise e, s).
Definition gets {S A} (f : S → A) : M S A := λ s, (Ok (f s), s).
Definition modify {S} (f : S → S) : M S unit := λ s, (Ok tt, f s).

(** ** Data model *)

(** The four concrete classes deriving from [BaseModel]. *)
Inductive Model := Temple | TempleGalleryImage | ArchitectureFeature | Product.

Global Instance Model_eq_dec : EqDecision Model.
Proof. solve_decision. Defined.

(** A row of [auth_user], known by its primary key. *)
Record User := { user_pk : nat }.

Global Instance User_eq_dec : EqDecision User.
Proof. solve_decision. Defined.

(** The class-specific columns.  [price] is kept in hundredths; the
    gallery image holds its related [Temple] object's name, which is all
    that [__str__] reads through [self.temple]. *)
Inductive Fields :=
  | TempleFields (name overview highlights location_info main_image_url : string)
  | TempleGalleryImageFields (temple_name image_url : string)
  | ArchitectureFeatureFields (title short_description full_description : string)
  | ProductFields (name : string) (price : Z) (description image_url : string).

Global Instance Fields_eq_dec : EqDecision Fields.
Proof. solve_decision. Defined.

Definition class_of_fields (f : Fields) : Model :=
  match f with
  | TempleFields _ _ _ _ _ => Temple
  | TempleGalleryImageFields _ _ => TempleGalleryImage
  | ArchitectureFeatureFields _ _ _ => ArchitectureFeature
  | ProductFields _ _ _ _ => Product
  end.

(** [__str__] of each concrete class. *)
Definition str_of_fields (f : Fields) : string :=
  match f with
  | TempleFields name _ _ _ _ => name
  | TempleGalleryImageFields temple_name _ => "Gallery Image for " +:+ temple_name
  | ArchitectureFeatureFields title _ _ => title
  | ProductFields name _ _ _ => name
  end.

(** A model instance.  [pk] is [None] until the first insert; an unset
    [ext_id] is the empty string (the [CharField] default), which is what
    [not self.ext_id] tests; the two timestamps are unset before the
    first save. *)
Record Instance := {
  pk : option nat;
  uid : N;
  ext_id : string;
  created_at : option nat;
  updated_at : option nat;
  deleted_at : option nat;
  created_user : option User;
  updated_user : option User;
  fields : Fields;
}.

Global Instance Instance_eq_dec : EqDecision Instance.
Proof. solve_decision. Defined.

Definition class_of (self : Instance) : Model := class_of_fields (fields self).
Definition str (self : Instance) : string := str_of_fields (fields self).

Definition set_pk (v : option nat) (self : Instance) : Instance :=
  {| pk := v; uid := uid self; ext_id := ext_id self;
     created_at := created_at self; updated_at := updated_at self;
     deleted_at := deleted_at self; created_user := created_user self;
     updated_user := updated_user self; fields := fields self |}.

Definition set_ext_id (v : string) (self : Instance) : Instance :=
  {| pk := pk self; uid := uid self; ext_id := v;
     created_at := created_at self; updated_at := updated_at self;
     deleted_at := deleted_at self; created_user := created_user self;
     updated_user := updated_user self; fields := fields self |}.

Definition set_created_at (v : option nat) (self : Instance) : Instance :=
  {| pk := pk self; uid := uid self; ext_id := ext_id self;
     created_at := v; updated_at := updated_at self;
     deleted_at := deleted_at self; created_user := created_user self;
     updated_user := updated_user self; fields := fields self |}.

Definition set_updated_at (v : option nat) (self : Instance) : Instance :=
  {| pk := pk self; uid := uid self; ext_id := ext_id self;
     created_at := created_at self; updated_at := v;
     deleted_at := deleted_at self; created_user := created_user self;
     updated_user := updated_user self; fields := fields self |}.

Definition set_deleted_at (v : option nat) (self : Instance) : Instance :=
  {| pk := pk self; uid := uid self; ext_id := ext_id self;
     created_at := created_at self; updated_at := updated_at self;
     deleted_at := v; created_user := created_user self;
     updated_user := updated_user self; fields := fields self |}.

Definition set_updated_user (v : option User) (self : Instance) : Instance :=
  {| pk := pk self; uid := uid self; ext_id := ext_id self;
     created_at := created_at self; updated_at := updated_at self;
     deleted_at := deleted_at self; created_user := created_user self;
     updated_user := v; fields := fields self |}.

(** [django.contrib.admin.models]: the action flags and a [LogEntry] row.
    [object_id] is a nullable text column. *)
Inductive ActionFlag := ADDITION | CHANGE | DELETION.

Global Instance ActionFlag_eq_dec : EqDecision ActionFlag.
Proof. solve_decision. Defined.

Definition action_flag_value (a : ActionFlag) : nat :=
  match a with ADDITION => 1 | CHANGE => 2 | DELETION => 3 end.

Record LogEntry := {
  action_time : nat;
  user_id : nat;
  content_type_id : nat;
  object_id : option string;
  object_repr : string;
  action_flag : ActionFlag;
  change_message : string;
}.

Global Instance LogEntry_eq_dec : EqDecision LogEntry.
Proof. solve_decision. Defined.

(** The database.  [tables cls] is the table of the concrete class [cls],
    its rows by primary key. *)
Record World := {
  tables : Model → gmap nat Instance;
  log_entries : list LogEntry;
  content_types : Model → nat;
  clock : nat;
  rng : nat → nat;
  rng_pos : nat;
  recursion_limit : nat;
}.

Definition set_table (cls : Model) (t : gmap nat Instance) (w : World) : World :=
  {| tables := λ c, if decide (c = cls) then t else tables w c;
     log_entries := log_entries w; content_types := content_types w;
     clock := clock w; rng := rng w; rng_pos := rng_pos w;
     recursion_limit := recursion_limit w |}.

Definition set_log_entries (l : list LogEntry) (w : World) : World :=
  {| tables := tables w; log_entries := l; content_types := content_types w;
     clock := clock w; rng := rng w; rng_pos := rng_pos w;
     recursion_limit := recursion_limit w |}.

Definition set_clock (t : nat) (w : World) : World :=
  {| tables := tables w; log_entries := log_entries w;
     content_types := content_types w; clock := t; rng := rng w;
     rng_pos := rng_pos w; recursion_limit := recursion_limit w |}.

Definition set_rng_pos (p : nat) (w : World) : World :=
  {| tables := tables w; log_entries := log_entries w;
     content_types := content_types w; clock := clock w; rng := rng w;
     rng_pos := p; recursion_limit := recursion_limit w |}.

(** [timezone.now()]: reads the clock, which then moves on. *)
Definition timezone_now : M World nat := λ w, (Ok (clock w), set_clock (S (clock w)) w).

(** ** Random external ids *)

(** [string.ascii_lowercase + string.digits] *)
Definition alphabet : list Ascii.ascii :=
  String.list_ascii_of_string "abcdefghijklmnopqrstuvwxyz0123456789".

(** [random.choice(seq)]: the next raw draw of the random source, reduced
    to an index of [seq]; an empty [seq] raises [IndexError]. *)
Definition random_choice (seq : list Ascii.ascii) : M World Ascii.ascii := λ w,
  match seq !! (rng w (rng_pos w) `mod` length seq) with
  | Some c => (Ok c, set_rng_pos (S (rng_pos w)) w)
  | None => (Raise (IndexError "Cannot choose from an empty sequence"), w)
  end.

(** [''.join(random.choice(...) for i in range(length))] *)
Fixpoint generate_ext (length : nat) : M World string :=
  match length with
  | 0 => mret EmptyString
  | S n =>
      c ← random_choice alphabet;
      s ← generate_ext n;
      mret (String c s)
  end.

(** ** Managers *)

(** A row read back from the table carries the key it is stored under. *)
Definition from_db (kr : nat * Instance) : Instance := set_pk (Some kr.1) kr.2.

Definition id_le (x y : nat * Instance) : Prop := x.1 ≤ y.1.

Global Instance id_le_dec x y : Decision (id_le x y).
Proof. unfold id_le. apply _. Defined.

(** [.order_by('id')], also the [Meta.ordering] of every concrete class. *)
Definition order_by_id (l : list (nat * Instance)) : list (nat * Instance) :=
  merge_sort id_le l.

Definition table_rows (cls : Model) (w : World) : list (nat * Instance) :=
  map_to_list (tables w cls).

(** [all_objects = models.Manager()]: every row of the class. *)
Definition all_objects (cls : Model) (w : World) : list Instance :=
  from_db <$> order_by_id (table_rows cls w).

(** [SoftDeleteManager.get_queryset]:
    [.filter(deleted_at__isnull=True).order_by('id')] *)
Definition objects (cls : Model) (w : World) : list Instance :=
  from_db <$> order_by_id (filter (λ kr, deleted_at kr.2 = None) (table_rows cls w)).

(** [cls.objects.filter(ext_id=ext_id).exists()] *)
Definition objects_filter_ext_id_exists (cls : Model) (e : string) (w : World) : bool :=
  bool_decide (Exists (λ r, ext_id r = e) (objects cls w)).

(** [generate_unique_ext].  The source's [while not ...: return ext_id]
    runs its body at most once: when no row of [instance.__class__.objects]
    has the candidate, the candidate is returned; otherwise the loop is
    skipped and the function calls itself.  [depth] is the number of
    nested calls the interpreter still allows. *)
Fixpoint generate_unique_ext_rec (depth : nat) (instance : Instance) (length : nat)
  : M World string :=
  match depth with
  | 0 => throw RecursionError
  | S depth' =>
      ext_id ← generate_ext length;
      found ← gets (objects_filter_ext_id_exists (class_of instance) ext_id);
      if negb found then mret ext_id
      else generate_unique_ext_rec depth' instance length
  end.

Definition generate_unique_ext (instance : Instance) (length : nat) : M World string :=
  λ w, generate_unique_ext_rec (recursion_limit w) instance length w.

(** ** Methods of [BaseModel]

    A method runs on the pair of [self] and the database, so that what it
    has assigned to [self] before an exception is still there after. *)

Definition Obj : Type := Instance * World.

Definition in_world {A} (m : M World A) : M Obj A := λ o,
  match m o.2 with (r, w') => (r, (o.1, w')) end.
Definition get_self : M Obj Instance := gets fst.
Definition set_self (f : Instance → Instance) : M Obj unit :=
  modify (λ o, (f o.1, o.2)).

(** The key an insert without key receives.  The store allocates it; it
    is taken here to be the next one above the keys in use, which is
    what SQLite's auto-increment column gives when rows are never
    removed, and no method here removes one. *)
Definition auto_id (t : gmap nat Instance) : nat :=
  S (max_list (fst <$> map_to_list t)).

(** The [unique=True] index on [ext_id]: a row other than [k] already
    holds [e]. *)
Definition ext_id_conflict (t : gmap nat Instance) (k : nat) (e : string) : bool :=
  bool_decide (map_Exists (λ k' r, k' ≠ k ∧ ext_id r = e) t).

(** The table of each concrete class: the app label and the lowercase
    class name. *)
Definition db_table (cls : Model) : string :=
  match cls with
  | Temple => "core_temple"
  | TempleGalleryImage => "core_templegalleryimage"
  | ArchitectureFeature => "core_architecturefeature"
  | Product => "core_product"
  end.

(** The error of the unique index, worded as the SQLite backend does. *)
Definition unique_violation (cls : Model) : exn :=
  IntegrityError ("UNIQUE constraint failed: " +:+ db_table cls +:+ ".ext_id").

(** [pre_save] of the two automatic fields, in the order the class
    declares them: [created_at] ([auto_now_add]) reads the clock when a
    row is added, [updated_at] ([auto_now]) reads it always. *)
Definition pre_save (add : bool) : M Obj unit :=
  (if add
   then now ← in_world timezone_now; set_self (set_created_at (Some now))
   else mret tt);;
  now ← in_world timezone_now;
  set_self (set_updated_at (Some now)).

(** The [INSERT] or [UPDATE] statement for key [k]: the unique index on
    [ext_id] is checked by the database, and the row is written. *)
Definition write_row (k : nat) : M Obj unit :=
  self ← get_self;
  table ← in_world (gets (λ w, tables w (class_of self)));
  if ext_id_conflict table k (ext_id self)
  then throw (unique_violation (class_of self))
  else in_world (modify (set_table (class_of self)
                           (<[k := set_pk (Some k) self]> table))).

(** [models.Model.save].  With a key, an [UPDATE] is tried first, after
    [pre_save] for an update; when no row has the key, the instance is
    inserted under it, after [pre_save] for an insert.  Without a key the
    instance is inserted and receives the key allocated.  The NOT NULL
    check of the columns is left out: the statements that say a call
    returns are about instances read from the database. *)
Definition Model_save : M Obj unit :=
  self ← get_self;
  table ← in_world (gets (λ w, tables w (class_of self)));
  match pk self with
  | Some k =>
      pre_save false;;
      if bool_decide (is_Some (table !! k))
      then write_row k
      else pre_save true;; write_row k
  | None =>
      pre_save true;;
      write_row (auto_id table);;
      set_self (set_pk (Some (auto_id table)))
  end.

(** [BaseModel.save] *)
Definition save : M Obj unit :=
  self ← get_self;
  (if bool_decide (ext_id self = EmptyString)
   then e ← in_world (generate_unique_ext self 10); set_self (set_ext_id e)
   else mret tt);;
  Model_save.

(** *** Audit log *)

Definition dquote : Ascii.ascii := Ascii.ascii_of_nat 34.
Definition squote : Ascii.ascii := Ascii.ascii_of_nat 39.
Definition backslash : Ascii.ascii := Ascii.ascii_of_nat 92.

Fixpoint contains_char (c : Ascii.ascii) (s : string) : bool :=
  match s with
  | EmptyString => false
  | String c' s' => bool_decide (c' = c) || contains_char c s'
  end.

Definition hex_digit (n : nat) : Ascii.ascii :=
  Ascii.ascii_of_nat (if bool_decide (n < 10) then 48 + n else 87 + n).

(** [\xNN], two lowercase hexadecimal digits. *)
Definition hex_escape (c : Ascii.ascii) : string :=
  let n := Ascii.nat_of_ascii c in
  String backslash
    ("x" +:+ String (hex_digit (n `div` 16))
               (String (hex_digit (n `mod` 16)) EmptyString)).

(** The characters of [repr] between the quotes [q]: backslash, the
    quote in use, newline, carriage return and tab have their short
    escapes, the other control characters and DEL are written [\xNN].
    Text is UTF-8, and the characters beyond ASCII are taken to be
    printable, which [repr] leaves as they are. *)
Fixpoint repr_body (q : Ascii.ascii) (s : string) : string :=
  match s with
  | EmptyString => EmptyString
  | String c s' =>
      (if bool_decide (c = backslash) then String backslash (String backslash EmptyString)
       else if bool_decide (c = q) then String backslash (String q EmptyString)
       else if bool_decide (c = Ascii.ascii_of_nat 10) then String backslash "n"
       else if bool_decide (c = Ascii.ascii_of_nat 13) then String backslash "r"
       else if bool_decide (c = Ascii.ascii_of_nat 9) then String backslash "t"
       else if bool_decide (Ascii.nat_of_ascii c < 32 ∨ Ascii.nat_of_ascii c = 127)
            then hex_escape c
       else String c EmptyString) +:+ repr_body q s'
  end.

(** [repr] of a text string: single quotes, unless the text has a single
    quote and no double quote. *)
Definition repr_str (s : string) : string :=
  let q := if contains_char squote s && negb (contains_char dquote s)
           then dquote else squote in
  String q (repr_body q s +:+ String q EmptyString).

Definition repr_bool (b : bool) : string := if b then "True" else "False".

Definition repr_code (code : option string) : string :=
  match code with
  | None => "None"
  | Some c => repr_str c
  end.

(** A byte that continues a UTF-8 character. *)
Definition is_continuation (c : Ascii.ascii) : bool :=
  bool_decide (128 ≤ Ascii.nat_of_ascii c < 192).

(** [s[:n]]: the first [n] characters of a UTF-8 text. *)
Fixpoint take_chars (n : nat) (s : string) : string :=
  match s with
  | EmptyString => EmptyString
  | String c s' =>
      if is_continuation c then String c (take_chars n s')
      else match n with
           | 0 => EmptyString
           | S m => String c (take_chars m s')
           end
  end.

(** [str(self.pk)] *)
Definition str_pk (k : option nat) : string :=
  match k with
  | None => "None"
  | Some n => pretty n
  end.

(** [LogEntry.objects.log_action] of [django.contrib.admin]: one row is
    created, stamped with the current time; the object id is stored as
    text and the representation is cut to 200 characters. *)
Definition LogEntry_log_action (user_id content_type_id : nat) (object_id : option nat)
    (object_repr : string) (action_flag : ActionFlag) (change_message : string)
  : M World unit :=
  now ← timezone_now;
  modify (λ w, set_log_entries
    (log_entries w ++
       [ {| action_time := now; user_id := user_id;
            content_type_id := content_type_id;
            object_id := Some (str_pk object_id);
            object_repr := take_chars 200 object_repr;
            action_flag := action_flag;
            change_message := change_message |} ]) w).

(** [BaseModel.log_action].  [change_message] is the [str] of the dict
    [{'message': ..., 'is_admin': ..., 'code': ...}]; [user.pk] is the
    first argument evaluated of the call that writes the entry. *)
Definition log_action (user : option User) (action_flag : ActionFlag)
    (message : option string) (is_admin : bool) (code : option string) : M Obj unit :=
  self ← get_self;
  let change_message :=
    "{'message': " +:+ repr_str (default EmptyString message) +:+
    ", 'is_admin': " +:+ repr_bool is_admin +:+
    ", 'code': " +:+ repr_code code +:+ "}" in
  match user with
  | None => throw (AttributeError "'NoneType' object has no attribute 'pk'")
  | Some u =>
      ct ← in_world (gets (λ w, content_types w (class_of self)));
      in_world (LogEntry_log_action (user_pk u) ct (pk self) (str self)
                  action_flag change_message)
  end.

(** [BaseModel.delete]; [user] is [kwargs.pop('user', None)]. *)
Definition delete (user : option User) : M Obj unit :=
  match user with
  | None => throw (ValueError "User must be provided for logging delete action.")
  | Some _ =>
      now ← in_world timezone_now;
      set_self (set_deleted_at (Some now));;
      set_self (set_updated_user user);;
      self ← get_self;
      log_action (updated_user self) DELETION (Some "Object soft deleted") false None;;
      save
  end.

(** [BaseModel.restore] *)
Definition restore : M Obj unit :=
  set_self (set_deleted_at None);;
  save;;
  self ← get_self;
  log_action (updated_user self) CHANGE (Some "Object restored") false None.

(** [BaseModel.is_deleted] *)
Definition is_deleted : M Obj bool :=
  self ← get_self;
  mret (bool_decide (deleted_at self ≠ None)).

Definition action_time_ge (x y : LogEntry) : Prop := action_time y ≤ action_time x.

Global Instance action_time_ge_dec x y : Decision (action_time_ge x y).
Proof. unfold action_time_ge. apply _. Defined.

(** [BaseModel.all_logs]: the entries of this object's content type and
    primary key, [.order_by('-action_time')].  A lookup by an integer key
    compares the text column with the key's decimal form; a lookup by
    [None] is an [IS NULL] test. *)
Definition all_logs : M Obj (list LogEntry) :=
  self ← get_self;
  content_type ← in_world (gets (λ w, content_types w (class_of self)));
  in_world (gets (λ w,
    merge_sort action_time_ge
      (filter (λ e, content_type_id e = content_type
                    ∧ object_id e = pretty <$> pk self)
              (log_entries w)))).

(** ** Notions used in the statements *)

(** The calls that write to the database. *)
Inductive Call := CallSave | CallDelete (user : option User) | CallRestore.

Definition call (c : Call) : M Obj unit :=
  match c with
  | CallSave => save
  | CallDelete user => delete user
  | CallRestore => restore
  end.

(** Ascending internal identity. *)
Definition id_lt (x y : Instance) : Prop :=
  ∃ i j, pk x = Some i ∧ pk y = Some j ∧ i < j.

Definition active (kr : nat * Instance) : Prop := deleted_at kr.2 = None.

(** No two rows of a table hold the same external id. *)
Definition ext_id_unique (t : gmap nat Instance) : Prop :=
  ∀ k1 k2 r1 r2,
    t !! k1 = Some r1 → t !! k2 = Some r2 → ext_id r1 = ext_id r2 → k1 = k2.

(** What [models.Model.save] leaves in [self] and in the table, and how
    often it reads the clock: once for an update, twice for an insert
    without key, three times for an insert that follows an update of no
    row. *)
Definition stamped (self : Instance) (w : World) : Instance :=
  match pk self with
  | Some k =>
      if bool_decide (is_Some (tables w (class_of self) !! k))
      then set_updated_at (Some (clock w)) self
      else set_updated_at (Some (S (S (clock w))))
             (set_created_at (Some (S (clock w))) self)
  | None =>
      set_updated_at (Some (S (clock w))) (set_created_at (Some (clock w)) self)
  end.

Definition readings (self : Instance) (w : World) : nat :=
  match pk self with
  | Some k => if bool_decide (is_Some (tables w (class_of self) !! k)) then 1 else 3
  | None => 2
  end.

Definition stored (self : Instance) (w : World) : Instance :=
  let table := tables w (class_of self) in
  set_pk (Some (default (auto_id table) (pk self))) (stamped self w).

Definition change_message_of (message : string) : string :=
  "{'message': '" +:+ message +:+ "', 'is_admin': False, 'code': None}".

(** The entry [log_action] writes for [self] on behalf of [u]. *)
Definition entry_for (self : Instance) (w : World) (u : User)
    (flag : ActionFlag) (change_message : string) : LogEntry :=
  {| action_time := clock w; user_id := user_pk u;
     content_type_id := content_types w (class_of self);
     object_id := Some (str_pk (pk self));
     object_repr := take_chars 200 (str self);
     action_flag := flag; change_message := change_message |}.

Definition logged (e : LogEntry) (w : World) : World :=
  set_log_entries (log_entries w ++ [e]) (set_clock (S (clock w)) w).

(** ** A small database to run the methods on *)

Definition content_types0 (c : Model) : nat :=
  match c with
  | Temple => 7 | TempleGalleryImage => 8 | ArchitectureFeature => 9 | Product => 10
  end.

(** An empty database whose random source yields index 0 twenty times
    and index 1 ever after. *)
Definition world0 : World :=
  {| tables := λ _, ∅; log_entries := []; content_types := content_types0;
     clock := 100; rng := λ i, if bool_decide (i < 20) then 0 else 1;
     rng_pos := 0; recursion_limit := 1000 |}.

Definition curator : User := {| user_pk := 3 |}.

Definition incense : Instance :=
  {| pk := None; uid := 5%N; ext_id := EmptyString; created_at := None; updated_at := None;
     deleted_at := None; created_user := None; updated_user := None;
     fields := ProductFields "Incense Set" 999 "Sandalwood incense" "https://example.org/incense.png" |}.

Definition belur : Instance :=
  {| pk := None; uid := 6%N; ext_id := EmptyString; created_at := None; updated_at := None;
     deleted_at := None; created_user := None; updated_user := None;
     fields := TempleFields "Chennakeshava" "overview" "highlights" "Belur"
                 "https://example.org/belur.png" |}.

(** [incense] and the database after [incense.save()] in [world0]. *)
Definition incense1 : Instance := Eval vm_compute in (save (incense, world0)).2.1.
Definition world1 : World := Eval vm_compute in (save (incense, world0)).2.2.

(** [belur.save()] in [world0], and then [incense.save()]. *)
Definition belur2 : Instance := Eval vm_compute in (save (belur, world0)).2.1.
Definition world2 : World := Eval vm_compute in (save (belur, world0)).2.2.
Definition incense3 : Instance := Eval vm_compute in (save (incense, world2)).2.1.
Definition world3 : World := Eval vm_compute in (save (incense, world2)).2.2.

(** [incense1.delete(user=curator)]; then [updated_user] is nulled in
    the row, as the column allows ([null=True]), by an update of that
    column alone that leaves the log as it is, and [orphan] is that row
    loaded again. *)
Definition incense4 : Instance :=
  Eval vm_compute in (delete (Some curator) (incense1, world1)).2.1.
Definition world4 : World :=
  Eval vm_compute in (delete (Some curator) (incense1, world1)).2.2.
Definition orphan : Instance := set_updated_user None incense4.

(** Another product, not yet saved. *)
Definition lamp : Instance :=
  {| pk := None; uid := 8%N; ext_id := EmptyString; created_at := None; updated_at := None;
     deleted_at := None; created_user := None; updated_user := None;
     fields := ProductFields "Brass Lamp" 2450 "Oil lamp" "https://example.org/lamp.png" |}.
Definition world5 : World :=
  Eval vm_compute in set_table Product (<[1 := orphan]> (tables world4 Product)) world4.
Definition orphan6 : Instance := Eval vm_compute in (restore (orphan, world5)).2.1.
Definition world6 : World := Eval vm_compute in (restore (orphan, world5)).2.2.

(** ** Notions used in the further properties *)

(** The candidate of the [i]-th attempt of [generate_unique_ext] started
    in [w]: what [generate_ext] returns once [i] earlier candidates have
    used up their draws. *)
Definition nth_candidate (length : nat) (w : World) (i : nat) : string :=
  match generate_ext length (set_rng_pos (rng_pos w + i * length) w) with
  | (Ok s, _) => s
  | (Raise _, _) => EmptyString
  end.

(** A client: any sequence of calls, each on an instance of its own
    choosing, carried on whatever each call's outcome. *)
Definition run_calls (cs : list (Call * Instance)) (w : World) : World :=
  foldl (λ w0 ci, (call ci.1 (ci.2, w0)).2.2) w cs.

(** [lamp.save()] after [incense.save()]: the first candidate collides,
    the second is taken. *)
Definition lamp7 : Instance := Eval vm_compute in (save (lamp, world1)).2.1.
Definition world7 : World := Eval vm_compute in (save (lamp, world1)).2.2.

(** [lamp7] with the external id of [incense1] written over its own. *)
Definition forged : Instance := set_ext_id "aaaaaaaaaa" lamp7.

(** [world1] with room for a single call of [generate_unique_ext]. *)
Definition world8 : World :=
  {| tables := tables world1; log_entries := log_entries world1;
     content_types := content_types world1; clock := clock world1;
     rng := rng world1; rng_pos := rng_pos world1; recursion_limit := 1 |}.

(** [lamp.save()] once [incense] is soft-deleted. *)
Definition lamp9 : Instance := Eval vm_compute in (save (lamp, world4)).2.1.
Definition world9 : World := Eval vm_compute in (save (lamp, world4)).2.2.

(** [incense4], with [deleted_at] cleared, saved again. *)
Definition incense10 : Instance :=
  Eval vm_compute in (save (set_deleted_at None incense4, world4)).2.1.
Definition world10 : World :=
  Eval vm_compute in (save (set_deleted_at None incense4, world4)).2.2.

(** [forged.delete(user=curator)] and [forged.restore()] in [world7]. *)
Definition forged11 : Instance :=
  Eval vm_compute in (delete (Some curator) (forged, world7)).2.1.
Definition world11 : World :=
  Eval vm_compute in (delete (Some curator) (forged, world7)).2.2.
Definition forged12 : Instance := Eval vm_compute in (restore (forged, world7)).2.1.
Definition world12 : World := Eval vm_compute in (restore (forged, world7)).2.2.

(** [incense4.restore()] *)
Definition incense13 : Instance := Eval vm_compute in (restore (incense4, world4)).2.1.
Definition world13 : World := Eval vm_compute in (restore (incense4, world4)).2.2.

(** [lamp.delete(user=curator)] on the unsaved [lamp]. *)
Definition lamp14 : Instance :=
  Eval vm_compute in (delete (Some curator) (lamp, world1)).2.1.
Definition world14 : World :=
  Eval vm_compute in (delete (Some curator) (lamp, world1)).2.2.

(** * Properties *)

(** ** Unfolding the methods *)

Ltac run_monad :=
  unfold mbind, M_bind, mret, M_ret, get_self, set_self, in_world, gets,
    modify, throw, timezone_now; cbn.

Lemma alphabet_length : length alphabet = 36.
Proof. reflexivity. Qed.

(** [random.choice] over the alphabet always yields one of its characters
    and consumes one draw. *)
Lemma random_choice_alphabet w :
  ∃ c, random_choice alphabet w = (Ok c, set_rng_pos (S (rng_pos w)) w)
       ∧ c ∈ alphabet.
Proof.
  unfold random_choice.
  assert (Hlt : rng w (rng_pos w) `mod` length alphabet < length alphabet).
  { apply Nat.mod_upper_bound. rewrite alphabet_length. lia. }
  destruct (lookup_lt_is_Some_2 _ _ Hlt) as [c Hc].
  exists c. rewrite Hc. split; [done|].
  by eapply list_elem_of_lookup_2.
Qed.

(** [generate_ext] never raises: it returns [length] characters of the
    alphabet and consumes [length] draws. *)
Lemma generate_ext_spec length w :
  ∃ s, generate_ext length w = (Ok s, set_rng_pos (length + rng_pos w) w)
       ∧ String.length s = length
       ∧ Forall (λ c, c ∈ alphabet) (String.list_ascii_of_string s).
Proof.
  revert w. induction length as [|n IH]; intros w.
  - exists EmptyString. repeat split; [|constructor].
    by destruct w.
  - destruct (random_choice_alphabet w) as (c & Hc & Hin).
    destruct (IH (set_rng_pos (S (rng_pos w)) w)) as (s & Hs & Hlen & Hall).
    exists (String c s). split; [|split].
    + cbn [generate_ext]. unfold mbind, M_bind. rewrite Hc, Hs. cbn.
      unfold mret, M_ret. f_equal. unfold set_rng_pos; cbn. f_equal. lia.
    + cbn. by rewrite Hlen.
    + cbn. by constructor.
Qed.

(** The candidate test reads the tables only. *)
Lemma objects_filter_ext_id_exists_tables cls e w w' :
  tables w' = tables w →
  objects_filter_ext_id_exists cls e w' = objects_filter_ext_id_exists cls e w.
Proof.
  intros H. unfold objects_filter_ext_id_exists, objects, table_rows. by rewrite H.
Qed.

(** One call of [generate_unique_ext]: the candidate is returned when the
    test finds no row, and the function calls itself otherwise. *)
Lemma generate_unique_ext_rec_step depth instance length w :
  ∃ cand,
    generate_ext length w = (Ok cand, set_rng_pos (length + rng_pos w) w)
    ∧ generate_unique_ext_rec (S depth) instance length w =
        if objects_filter_ext_id_exists (class_of instance) cand w
        then generate_unique_ext_rec depth instance length
               (set_rng_pos (length + rng_pos w) w)
        else (Ok cand, set_rng_pos (length + rng_pos w) w).
Proof.
  destruct (generate_ext_spec length w) as (cand & Hg & _ & _).
  exists cand. split; [done|].
  cbn [generate_unique_ext_rec]. unfold mbind, M_bind. rewrite Hg. cbn.
  rewrite (objects_filter_ext_id_exists_tables _ _ w) by done.
  by destruct (objects_filter_ext_id_exists _ _ _).
Qed.

(** Whatever [generate_unique_ext] does, it only moves the random source
    on; a returned id has the requested length, is made of the alphabet,
    and is held by no row of the class's default manager. *)
Lemma generate_unique_ext_rec_spec depth instance length w r w' :
  generate_unique_ext_rec depth instance length w = (r, w') →
  (∃ p, w' = set_rng_pos p w)
  ∧ ∀ e, r = Ok e →
      String.length e = length
      ∧ Forall (λ c, c ∈ alphabet) (String.list_ascii_of_string e)
      ∧ objects_filter_ext_id_exists (class_of instance) e w = false.
Proof.
  revert w. induction depth as [|d IH]; intros w H.
  - cbn in H. unfold throw in H. injection H as <- <-. split; [|done].
    exists (rng_pos w). by destruct w.
  - destruct (generate_unique_ext_rec_step d instance length w) as (cand & Hg & Hstep).
    rewrite Hstep in H.
    destruct (generate_ext_spec length w) as (s & Hs & Hlen & Hall).
    rewrite Hg in Hs. simplify_eq.
    destruct (objects_filter_ext_id_exists (class_of instance) s w) eqn:Hex.
    + apply IH in H as [[p ->] Hr]. split; [by exists p|].
      intros e He. destruct (Hr e He) as (? & ? & Hno).
      by rewrite (objects_filter_ext_id_exists_tables _ _ w) in Hno.
    + injection H as <- <-. split; [by eexists|].
      intros e [= <-]. done.
Qed.

Lemma generate_unique_ext_spec instance length w r w' :
  generate_unique_ext instance length w = (r, w') →
  (∃ p, w' = set_rng_pos p w)
  ∧ ∀ e, r = Ok e →
      String.length e = length
      ∧ Forall (λ c, c ∈ alphabet) (String.list_ascii_of_string e)
      ∧ objects_filter_ext_id_exists (class_of instance) e w = false.
Proof. apply generate_unique_ext_rec_spec. Qed.

Lemma Model_save_unfold self w :
  Model_save (self, w) =
    let table := tables w (class_of self) in
    let k := default (auto_id table) (pk self) in
    let w1 := set_clock (readings self w + clock w) w in
    if ext_id_conflict table k (ext_id self)
    then (Raise (unique_violation (class_of self)), (stamped self w, w1))
    else (Ok tt, (stored self w, set_table (class_of self) (<[k := stored self w]> table) w1)).
Proof.
  unfold Model_save, pre_save, write_row, stored, stamped, readings, class_of.
  run_monad. destruct self as [[k|] ? ? ? ? ? ? ? ?]; cbn;
    [destruct (bool_decide _); cbn|];
    destruct (ext_id_conflict _ _ _); reflexivity.
Qed.

Lemma stamped_columns self w :
  pk (stamped self w) = pk self
  ∧ ext_id (stamped self w) = ext_id self
  ∧ deleted_at (stamped self w) = deleted_at self
  ∧ updated_user (stamped self w) = updated_user self
  ∧ fields (stamped self w) = fields self.
Proof.
  unfold stamped. destruct (pk self) as [k|] eqn:Hpk;
    [destruct (bool_decide _)|]; cbn; by rewrite ?Hpk.
Qed.

(** The columns of the row that [models.Model.save] writes. *)
Lemma stored_columns self w :
  pk (stored self w) = Some (default (auto_id (tables w (class_of self))) (pk self))
  ∧ ext_id (stored self w) = ext_id self
  ∧ deleted_at (stored self w) = deleted_at self
  ∧ updated_user (stored self w) = updated_user self
  ∧ fields (stored self w) = fields self
  ∧ updated_at (stored self w) =
      Some match pk self with
           | Some k =>
               if bool_decide (is_Some (tables w (class_of self) !! k))
               then clock w else S (S (clock w))
           | None => S (clock w)
           end
  ∧ created_at (stored self w) =
      match pk self with
      | Some k =>
          if bool_decide (is_Some (tables w (class_of self) !! k))
          then created_at self else Some (S (clock w))
      | None => Some (clock w)
      end.
Proof.
  unfold stored, stamped. destruct (pk self) as [k|];
    [destruct (bool_decide _)|]; done.
Qed.

Lemma save_unfold self w :
  save (self, w) =
    if bool_decide (ext_id self = EmptyString)
    then match generate_unique_ext self 10 w with
         | (Ok e, w1) => Model_save (set_ext_id e self, w1)
         | (Raise x, w1) => (Raise x, (self, w1))
         end
    else Model_save (self, w).
Proof.
  unfold save. run_monad. destruct (bool_decide _); cbn; [|done].
  by destruct (generate_unique_ext self 10 w) as [[e|x] w1].
Qed.

Lemma log_action_soft_deleted self w u :
  log_action (Some u) DELETION (Some "Object soft deleted") false None (self, w) =
    (Ok tt, (self, logged (entry_for self w u DELETION
                             (change_message_of "Object soft deleted")) w)).
Proof. reflexivity. Qed.

Lemma log_action_restored self w u :
  log_action (Some u) CHANGE (Some "Object restored") false None (self, w) =
    (Ok tt, (self, logged (entry_for self w u CHANGE
                             (change_message_of "Object restored")) w)).
Proof. reflexivity. Qed.

Lemma log_action_no_user self w flag message is_admin code :
  log_action None flag message is_admin code (self, w) =
    (Raise (AttributeError "'NoneType' object has no attribute 'pk'"), (self, w)).
Proof. reflexivity. Qed.

Lemma delete_unfold u self w :
  delete (Some u) (self, w) =
    let self1 := set_updated_user (Some u) (set_deleted_at (Some (clock w)) self) in
    let w1 := set_clock (S (clock w)) w in
    save (self1, logged (entry_for self1 w1 u DELETION
                           (change_message_of "Object soft deleted")) w1).
Proof. reflexivity. Qed.

Lemma restore_unfold self w :
  restore (self, w) =
    match save (set_deleted_at None self, w) with
    | (Ok _, (self1, w1)) =>
        log_action (updated_user self1) CHANGE (Some "Object restored") false None
          (self1, w1)
    | (Raise x, o) => (Raise x, o)
    end.
Proof.
  unfold restore. run_monad.
  by destruct (save (set_deleted_at None self, w)) as [[[]|x] [self1 w1]].
Qed.

(** ** The two managers *)

Global Instance id_le_total : Total id_le.
Proof. intros x y. unfold id_le. lia. Qed.

Global Instance id_le_trans : Transitive id_le.
Proof. intros x y z. unfold id_le. lia. Qed.

Global Instance action_time_ge_total : Total action_time_ge.
Proof. intros x y. unfold action_time_ge. lia. Qed.

Global Instance action_time_ge_trans : Transitive action_time_ge.
Proof. intros x y z. unfold action_time_ge. lia. Qed.

Lemma objects_eq cls w :
  objects cls w = from_db <$> order_by_id (filter active (table_rows cls w)).
Proof. reflexivity. Qed.

(** Sorting rows with distinct keys gives strictly ascending keys. *)
Lemma order_by_id_strict (l : list (nat * Instance)) :
  NoDup l.*1 → StronglySorted id_lt (from_db <$> order_by_id l).
Proof.
  intros Hnd. unfold order_by_id.
  assert (Hnd' : NoDup (merge_sort id_le l).*1).
  { by rewrite merge_sort_Permutation. }
  pose proof (StronglySorted_merge_sort id_le l) as Hs.
  induction Hs as [|x l' Hs IH Hall]; [constructor|].
  rewrite fmap_cons in Hnd'. apply NoDup_cons in Hnd' as [Hx Hnd'].
  csimpl. constructor; [by apply IH|].
  rewrite Forall_fmap. rewrite Forall_forall in Hall |- *.
  intros y Hy. specialize (Hall y Hy).
  exists x.1, y.1. repeat split. unfold id_le in Hall.
  assert (x.1 ≠ y.1); [|lia].
  intros Heq. apply Hx. rewrite Heq. by apply list_elem_of_fmap_2.
Qed.

Lemma NoDup_fst_filter (P : nat * Instance → Prop) `{∀ x, Decision (P x)}
    (l : list (nat * Instance)) :
  NoDup l.*1 → NoDup (filter P l).*1.
Proof.
  induction l as [|x l IH]; [done|].
  rewrite fmap_cons. intros [Hx Hnd]%NoDup_cons.
  rewrite filter_cons. case_decide; [|by apply IH].
  rewrite fmap_cons. apply NoDup_cons. split; [|by apply IH].
  intros Hin. apply Hx.
  apply list_elem_of_fmap in Hin as (y & -> & Hy).
  apply list_elem_of_filter in Hy as [_ Hy]. by apply list_elem_of_fmap_2.
Qed.

Lemma elem_of_all_objects cls w r :
  r ∈ all_objects cls w ↔
  ∃ k r0, tables w cls !! k = Some r0 ∧ r = from_db (k, r0).
Proof.
  unfold all_objects, order_by_id, table_rows. rewrite list_elem_of_fmap.
  setoid_rewrite merge_sort_Permutation. split.
  - intros ([k r0] & -> & Hin%elem_of_map_to_list). eauto.
  - intros (k & r0 & Hl & ->). exists (k, r0). by rewrite elem_of_map_to_list.
Qed.

Lemma elem_of_objects cls w r :
  r ∈ objects cls w ↔
  ∃ k r0, tables w cls !! k = Some r0 ∧ deleted_at r0 = None ∧ r = from_db (k, r0).
Proof.
  unfold objects, order_by_id, table_rows. rewrite list_elem_of_fmap.
  setoid_rewrite merge_sort_Permutation.
  setoid_rewrite list_elem_of_filter. split.
  - intros ([k r0] & -> & Hact & Hin%elem_of_map_to_list). eauto.
  - intros (k & r0 & Hl & Hact & ->). exists (k, r0).
    by rewrite elem_of_map_to_list.
Qed.

Lemma objects_sorted cls w : StronglySorted id_lt (objects cls w).
Proof.
  apply order_by_id_strict, NoDup_fst_filter, NoDup_fst_map_to_list.
Qed.

Lemma length_all_objects cls w : length (all_objects cls w) = size (tables w cls).
Proof.
  unfold all_objects, order_by_id, table_rows.
  by rewrite length_fmap, merge_sort_Permutation, length_map_to_list.
Qed.

Lemma length_objects cls w :
  length (objects cls w) = length (filter active (table_rows cls w)).
Proof.
  rewrite objects_eq. unfold order_by_id.
  by rewrite length_fmap, merge_sort_Permutation.
Qed.

(** Overwriting an active row by a soft-deleted one: the table keeps its
    size and the default listing loses one row. *)
Lemma soft_delete_counts (t : gmap nat Instance) k r0 r1 :
  t !! k = Some r0 → deleted_at r0 = None → deleted_at r1 ≠ None →
  size (<[k := r1]> t) = size t
  ∧ S (length (filter active (map_to_list (<[k := r1]> t))))
    = length (filter active (map_to_list t)).
Proof.
  intros Hk H0 H1. split.
  - by apply map_size_insert_Some.
  - rewrite <-(map_to_list_delete t k r0 Hk).
    rewrite <-insert_delete_eq.
    rewrite map_to_list_insert by apply lookup_delete_eq.
    rewrite !filter_cons. unfold active at 1 3. cbn.
    rewrite decide_False by done. rewrite decide_True by done. done.
Qed.

(** ** What [save] can do *)

Lemma Model_save_inv self w r self' w' :
  Model_save (self, w) = (r, (self', w')) →
  let table := tables w (class_of self) in
  let k := default (auto_id table) (pk self) in
  (ext_id_conflict table k (ext_id self) = true
   ∧ r = Raise (unique_violation (class_of self))
   ∧ self' = stamped self w ∧ w' = set_clock (readings self w + clock w) w)
  ∨ (ext_id_conflict table k (ext_id self) = false
     ∧ r = Ok tt ∧ self' = stored self w
     ∧ w' = set_table (class_of self) (<[k := stored self w]> table)
              (set_clock (readings self w + clock w) w)).
Proof.
  rewrite Model_save_unfold. cbn zeta.
  destruct (ext_id_conflict _ _ _); intros [= <- <- <-]; [left|right]; done.
Qed.

Lemma set_ext_id_same self : set_ext_id (ext_id self) self = self.
Proof. by destruct self. Qed.

Lemma set_rng_pos_same w : set_rng_pos (rng_pos w) w = w.
Proof. by destruct w. Qed.

Lemma save_inv self w r self' w' :
  save (self, w) = (r, (self', w')) →
  (∃ x p, ext_id self = EmptyString ∧ r = Raise x ∧ self' = self ∧ w' = set_rng_pos p w)
  ∨ (∃ e p,
       Model_save (set_ext_id e self, set_rng_pos p w) = (r, (self', w'))
       ∧ if bool_decide (ext_id self = EmptyString)
         then generate_unique_ext self 10 w = (Ok e, set_rng_pos p w)
         else e = ext_id self ∧ p = rng_pos w).
Proof.
  rewrite save_unfold. case_bool_decide as Hext.
  - destruct (generate_unique_ext self 10 w) as [[e|x] w1] eqn:Hgen.
    + destruct (generate_unique_ext_spec _ _ _ _ _ Hgen) as [[p ->] _].
      intros H. right. by exists e, p.
    + destruct (generate_unique_ext_spec _ _ _ _ _ Hgen) as [[p ->] _].
      intros [= <- <- <-]. left. by exists x, p.
  - intros H. right. exists (ext_id self), (rng_pos w).
    by rewrite set_ext_id_same, set_rng_pos_same.
Qed.

Ltac save_cases H :=
  let x := fresh "x" in let p := fresh "p" in let e := fresh "e" in
  let Hext := fresh "Hext" in let Hgen := fresh "Hgen" in
  let Hc := fresh "Hc" in
  apply save_inv in H as [(x & p & Hext & -> & -> & ->) | (e & p & H & Hgen)];
  [ | apply Model_save_inv in H as [(Hc & -> & -> & ->) | (Hc & -> & -> & ->)] ].

Lemma ext_id_conflict_false t k e :
  ext_id_conflict t k e = false →
  ∀ k' r', t !! k' = Some r' → k' ≠ k → ext_id r' ≠ e.
Proof.
  unfold ext_id_conflict. intros Hc%bool_decide_eq_false k' r' Hk' Hne He.
  apply Hc. by eapply map_Exists_lookup_2.
Qed.

Lemma ext_id_unique_insert t k r :
  ext_id_unique t → ext_id_conflict t k (ext_id r) = false →
  ext_id_unique (<[k := r]> t).
Proof.
  intros Hu Hc k1 k2 r1 r2 H1 H2 He.
  pose proof (ext_id_conflict_false _ _ _ Hc) as Hno.
  apply lookup_insert_Some in H1 as [[E1 <-]|[Hn1 H1]];
    apply lookup_insert_Some in H2 as [[E2 <-]|[Hn2 H2]].
  - congruence.
  - exfalso. by eapply (Hno k2 r2).
  - exfalso. by eapply (Hno k1 r1).
  - by eapply Hu.
Qed.

(** A key given by auto-increment is not in use. *)
Lemma auto_id_fresh (t : gmap nat Instance) : t !! auto_id t = None.
Proof.
  apply eq_None_not_Some. intros [r Hr].
  assert (Hin : auto_id t ∈ (map_to_list t).*1).
  { apply list_elem_of_fmap. exists (auto_id t, r).
    split; [done|]. by apply elem_of_map_to_list. }
  apply max_list_elem_of_le in Hin. unfold auto_id in Hin. lia.
Qed.

(** [save] leaves alone the audit log, the content types and every
    column but [ext_id], the two automatic timestamps and the key. *)
Lemma save_frame self w r self' w' :
  save (self, w) = (r, (self', w')) →
  log_entries w' = log_entries w
  ∧ content_types w' = content_types w
  ∧ deleted_at self' = deleted_at self
  ∧ updated_user self' = updated_user self
  ∧ fields self' = fields self.
Proof.
  intros H. save_cases H; try done.
  - by destruct (stamped_columns (set_ext_id e self) (set_rng_pos p w))
      as (_ & _ & -> & -> & ->).
  - by destruct (stored_columns (set_ext_id e self) (set_rng_pos p w))
      as (_ & _ & -> & -> & -> & _).
Qed.

(** [save] never removes a row. *)
Lemma save_keeps_rows self w r self' w' :
  save (self, w) = (r, (self', w')) →
  ∀ cls k, is_Some (tables w cls !! k) → is_Some (tables w' cls !! k).
Proof.
  intros H cls k Hk. save_cases H; try done. cbn.
  destruct (decide (cls = _)) as [->|Hcls]; [|done].
  rewrite lookup_insert_is_Some.
  destruct (decide (default (auto_id (tables w (class_of (set_ext_id e self))))
                      (pk self) = k)); auto.
Qed.

(** [save] keeps the external ids of each table pairwise distinct. *)
Lemma save_keeps_unique self w r self' w' :
  save (self, w) = (r, (self', w')) →
  ∀ cls, ext_id_unique (tables w cls) → ext_id_unique (tables w' cls).
Proof.
  intros H cls Hu. save_cases H; try done. cbn.
  destruct (decide (cls = _)) as [->|Hcls]; [|done].
  apply ext_id_unique_insert; [done|].
  by destruct (stored_columns (set_ext_id e self) (set_rng_pos p w)) as (_ & -> & _).
Qed.

(** A successful [save] leaves [self] stored under its key. *)
Lemma save_ok_stored self w r self' w' :
  save (self, w) = (r, (self', w')) → r = Ok tt →
  ∃ k, pk self' = Some k ∧ tables w' (class_of self) !! k = Some self'.
Proof.
  intros H Hr. save_cases H; try done.
  eexists. split; [apply stored_columns|]. cbn.
  change (class_of (set_ext_id e self)) with (class_of self).
  rewrite decide_True by done. apply lookup_insert_eq.
Qed.

(** When the external id is set and the unique index has no objection,
    [save] succeeds. *)
Lemma save_total self w :
  ext_id self ≠ EmptyString →
  ext_id_conflict (tables w (class_of self))
    (default (auto_id (tables w (class_of self))) (pk self)) (ext_id self) = false →
  save (self, w) =
    (Ok tt, (stored self w,
             set_table (class_of self)
               (<[default (auto_id (tables w (class_of self))) (pk self)
                  := stored self w]> (tables w (class_of self)))
               (set_clock (readings self w + clock w) w))).
Proof.
  intros Hext Hc. rewrite save_unfold, bool_decide_false by done.
  rewrite Model_save_unfold. cbn zeta. by rewrite Hc.
Qed.

(** The row an instance was loaded from never conflicts with itself. *)
Lemma ext_id_conflict_own_row t k r0 :
  ext_id_unique t → t !! k = Some r0 → ext_id_conflict t k (ext_id r0) = false.
Proof.
  intros Hu Hk. apply bool_decide_eq_false.
  intros (k' & r' & Hk' & Hne & He)%map_Exists_lookup.
  apply Hne. by eapply Hu.
Qed.

(** An instance that has the key and the external id of a stored row,
    in a table whose external ids are distinct, is saved without
    objection. *)
Lemma save_of_stored_returns s w k r0 :
  pk s = Some k →
  tables w (class_of s) !! k = Some r0 →
  ext_id s = ext_id r0 →
  ext_id s ≠ EmptyString →
  ext_id_unique (tables w (class_of s)) →
  save (s, w) =
    (Ok tt, (stored s w,
             set_table (class_of s) (<[k := stored s w]> (tables w (class_of s)))
               (set_clock (readings s w + clock w) w))).
Proof.
  intros Hpk Hrow He Hext Hu. rewrite save_total; [by rewrite Hpk|done|].
  rewrite Hpk, He. cbn. by apply ext_id_conflict_own_row.
Qed.

(** [log_action] touches neither [self] nor any table. *)
Lemma log_action_frame user flag message is_admin code self w r self' w' :
  log_action user flag message is_admin code (self, w) = (r, (self', w')) →
  self' = self ∧ tables w' = tables w
  ∧ (user = None → r = Raise (AttributeError "'NoneType' object has no attribute 'pk'")
                   ∧ w' = w).
Proof.
  destruct user as [u|]; unfold log_action, LogEntry_log_action; run_monad;
    intros [= <- <- <-]; done.
Qed.

(** With an updated-by user on record, [restore] clears [deleted_at],
    saves, and then writes one "Object restored" entry in that user's
    name; it never assigns [updated_user]. *)
Lemma restore_with_updated_user self w u self1 w1 :
  updated_user self = Some u →
  save (set_deleted_at None self, w) = (Ok tt, (self1, w1)) →
  restore (self, w) =
    (Ok tt, (self1, logged (entry_for self1 w1 u CHANGE
                              (change_message_of "Object restored")) w1))
  ∧ deleted_at self1 = None ∧ updated_user self1 = Some u.
Proof.
  intros Hu Hs. rewrite restore_unfold, Hs.
  destruct (save_frame _ _ _ _ _ Hs) as (_ & _ & Hd & Hu' & _).
  cbn in Hd, Hu'. rewrite Hu in Hu'. rewrite Hu', log_action_restored. done.
Qed.

(** ** External ids *)

(** C1, as the code has it: one call of [generate_unique_ext] draws a
    candidate, returns it when no row of the class's default manager holds
    it, and calls itself with the random source moved on only when some
    row does; so an id that [generate_unique_ext] returns is held by no
    such row. *)
Theorem generate_unique_ext_accepts_unique depth instance length w :
  ∃ cand w1,
    generate_ext length w = (Ok cand, w1)
    ∧ generate_unique_ext_rec (S depth) instance length w =
        (if objects_filter_ext_id_exists (class_of instance) cand w
         then generate_unique_ext_rec depth instance length w1
         else (Ok cand, w1))
    ∧ ∀ e w', generate_unique_ext instance length w = (Ok e, w') →
              objects_filter_ext_id_exists (class_of instance) e w = false
              ∧ ∀ x, x ∈ objects (class_of instance) w → ext_id x ≠ e.
Proof.
  destruct (generate_unique_ext_rec_step depth instance length w) as (cand & Hg & Hstep).
  exists cand, (set_rng_pos (length + rng_pos w) w). split; [done|]. split; [done|].
  intros e w' H. apply generate_unique_ext_spec in H as [_ H].
  destruct (H e eq_refl) as (_ & _ & Hno). split; [done|].
  intros x Hx He. apply bool_decide_eq_false in Hno. apply Hno.
  apply Exists_exists. eauto.
Qed.

(** C1 fails as stated.  In the empty database the first candidate,
    [aaaaaaaaaa], collides with nothing and is returned at once, after
    ten draws; once a product saved with it holds [aaaaaaaaaa], the
    same candidate is turned down and the next one, [bbbbbbbbbb], is
    returned, at draw thirty. *)
Lemma generate_unique_ext_inverted_counterexample :
  objects_filter_ext_id_exists Product "aaaaaaaaaa" world0 = false
  ∧ generate_unique_ext incense 10 world0 = (Ok "aaaaaaaaaa", set_rng_pos 10 world0)
  ∧ save (incense, world0) = (Ok tt, (incense1, world1))
  ∧ objects_filter_ext_id_exists Product "aaaaaaaaaa" world1 = true
  ∧ rng_pos world1 = 10
  ∧ generate_unique_ext incense 10 world1 = (Ok "bbbbbbbbbb", set_rng_pos 30 world1).
Proof. split_and!; vm_compute; reflexivity. Qed.

(** C2, as the code has it: uniqueness holds inside each concrete class.
    Whatever [save], [delete] or [restore] does, and whether it returns or
    raises, the rows of every table keep pairwise distinct external ids,
    so two records of one class with the same external id are one
    record; and an id that [generate_unique_ext] returns for [self]
    differs from the id of every record that the manager of [self]'s own
    class lists. *)
Theorem ext_id_unique_within_class c self w r self' w' :
  call c (self, w) = (r, (self', w')) →
  (∀ cls, ext_id_unique (tables w cls)) →
  (∀ cls, ext_id_unique (tables w' cls))
  ∧ (∀ cls x y, x ∈ all_objects cls w' → y ∈ all_objects cls w' →
       ext_id x = ext_id y → x = y)
  ∧ (∀ e w1, generate_unique_ext self 10 w = (Ok e, w1) →
       ∀ x, x ∈ objects (class_of self) w → ext_id x ≠ e).
Proof.
  intros Hcall Hu.
  assert (Hu' : ∀ cls, ext_id_unique (tables w' cls)).
  { intros cls. destruct c as [|[u|]|]; cbn [call] in Hcall.
    + exact (save_keeps_unique _ _ _ _ _ Hcall cls (Hu cls)).
    + rewrite delete_unfold in Hcall. cbn zeta in Hcall.
      exact (save_keeps_unique _ _ _ _ _ Hcall cls (Hu cls)).
    + unfold delete, throw in Hcall. by injection Hcall as <- <- <-.
    + rewrite restore_unfold in Hcall.
      destruct (save (set_deleted_at None self, w)) as [[[]|x] [self1 w1]] eqn:Hs.
      * apply log_action_frame in Hcall as (_ & -> & _).
        exact (save_keeps_unique _ _ _ _ _ Hs cls (Hu cls)).
      * injection Hcall as <- <- <-.
        exact (save_keeps_unique _ _ _ _ _ Hs cls (Hu cls)). }
  split; [exact Hu'|]. split.
  - intros cls x y (k1 & r1 & Hk1 & ->)%elem_of_all_objects
      (k2 & r2 & Hk2 & ->)%elem_of_all_objects He.
    assert (k1 = k2) as <-.
    { apply (Hu' cls k1 k2 r1 r2 Hk1 Hk2). by destruct r1, r2. }
    congruence.
  - intros e w1 Hg x Hx He.
    apply generate_unique_ext_spec in Hg as [_ Hg].
    destruct (Hg e eq_refl) as (_ & _ & Hno).
    apply bool_decide_eq_false in Hno. apply Hno.
    apply Exists_exists. eauto.
Qed.

Lemma ext_id_unique_empty : ext_id_unique ∅.
Proof. intros k1 k2 r1 r2 H. by rewrite lookup_empty in H. Qed.

Lemma world1_products : tables world1 Product = <[1 := incense1]> ∅.
Proof. vm_compute. reflexivity. Qed.

Lemma world1_unique : ext_id_unique (tables world1 Product).
Proof.
  rewrite world1_products. apply ext_id_unique_insert.
  - apply ext_id_unique_empty.
  - vm_compute. reflexivity.
Qed.

Lemma world1_all_unique cls : ext_id_unique (tables world1 cls).
Proof. destruct cls; first [exact world1_unique|exact ext_id_unique_empty]. Qed.

Lemma incense1_listed : incense1 ∈ all_objects Product world1.
Proof. apply (bool_decide_unpack _). vm_compute. exact I. Qed.

Lemma ext_id_unique_within_class_witness :
  call CallSave (lamp, world1) = (Ok tt, (lamp7, world7))
  ∧ (∀ cls, ext_id_unique (tables world1 cls))
  ∧ objects Product world1 = [incense1]
  ∧ ext_id incense1 = "aaaaaaaaaa"
  ∧ generate_unique_ext lamp 10 world1 = (Ok "bbbbbbbbbb", set_rng_pos 30 world1)
  ∧ ext_id <$> all_objects Product world7 = ["aaaaaaaaaa"; "bbbbbbbbbb"]
  ∧ (∀ cls, ext_id_unique (tables world7 cls))
  ∧ (∀ cls x y, x ∈ all_objects cls world7 → y ∈ all_objects cls world7 →
       ext_id x = ext_id y → x = y)
  ∧ (∀ e w1, generate_unique_ext lamp 10 world1 = (Ok e, w1) →
       ∀ x, x ∈ objects (class_of lamp) world1 → ext_id x ≠ e).
Proof.
  assert (Hc : call CallSave (lamp, world1) = (Ok tt, (lamp7, world7))).
  { vm_compute. reflexivity. }
  split; [exact Hc|]. split; [exact world1_all_unique|].
  split; [vm_compute; reflexivity|]. split; [reflexivity|].
  split; [vm_compute; reflexivity|]. split; [vm_compute; reflexivity|].
  exact (ext_id_unique_within_class CallSave lamp world1 (Ok tt)
           lamp7 world7 Hc world1_all_unique).
Defined.

(** C2 fails as stated.  [belur.save()] and then [incense.save()], in a
    database whose random source repeats itself, both succeed and leave
    a temple and a product with the same external id: the product's
    candidate is tested against products only. *)
Lemma ext_id_shared_across_classes_counterexample :
  save (belur, world0) = (Ok tt, (belur2, world2))
  ∧ save (incense, world2) = (Ok tt, (incense3, world3))
  ∧ ext_id <$> all_objects Temple world3 = ["aaaaaaaaaa"]
  ∧ ext_id <$> all_objects Product world3 = ["aaaaaaaaaa"].
Proof. split_and!; vm_compute; reflexivity. Qed.

(** The candidate test looks at rows that are not soft-deleted only:
    with [incense] soft-deleted, its external id is offered to the next
    product, and it is the unique index that then refuses the row. *)
Example soft_deleted_id_is_offered_again :
  objects Product world4 = []
  ∧ ext_id <$> all_objects Product world4 = ["aaaaaaaaaa"]
  ∧ generate_unique_ext lamp 10 world4 = (Ok "aaaaaaaaaa", set_rng_pos 20 world4)
  ∧ (save (lamp, world4)).1
    = Raise (IntegrityError "UNIQUE constraint failed: core_product.ext_id").
Proof. split_and!; vm_compute; reflexivity. Qed.



(** ** Soft deletion *)

(** C3: [delete] without a user raises the [ValueError] of the source
    (the specification's [InvalidOperation]) and changes nothing:
    neither [self], in particular [deleted_at], nor the database. *)
Theorem delete_without_user_raises self w :
  delete None (self, w) =
    (Raise (ValueError "User must be provided for logging delete action."), (self, w))
  ∧ deleted_at (delete None (self, w)).2.1 = deleted_at self
  ∧ tables (delete None (self, w)).2.2 = tables w
  ∧ log_entries (delete None (self, w)).2.2 = log_entries w.
Proof. done. Qed.

(** C4: [delete(user=u)] stamps [deleted_at] with the current time, sets
    [updated_user] to [u], writes exactly one log entry, a [DELETION]
    whose message is "Object soft deleted", and then is [save()] on that
    state.  Whatever [save] then does, the two assignments and the one
    new entry stand and no row has left any table; when it returns, the
    row of [self] is stored with them.  For a record read from the
    database, with an external id that is set, in a table whose external
    ids are distinct, it returns. *)
Theorem delete_soft_deletes self w u :
  let now := clock w in
  let self1 := set_updated_user (Some u) (set_deleted_at (Some now) self) in
  let entry :=
    {| action_time := S now; user_id := user_pk u;
       content_type_id := content_types w (class_of self);
       object_id := Some (str_pk (pk self));
       object_repr := take_chars 200 (str self);
       action_flag := DELETION;
       change_message :=
         "{'message': 'Object soft deleted', 'is_admin': False, 'code': None}" |} in
  let w1 := set_log_entries (log_entries w ++ [entry]) (set_clock (S (S now)) w) in
  delete (Some u) (self, w) = save (self1, w1)
  ∧ (∀ r self' w', delete (Some u) (self, w) = (r, (self', w')) →
       deleted_at self' = Some now
       ∧ updated_user self' = Some u
       ∧ log_entries w' = log_entries w ++ [entry]
       ∧ (∀ cls k, is_Some (tables w cls !! k) → is_Some (tables w' cls !! k))
       ∧ (r = Ok tt →
            ∃ k, pk self' = Some k ∧ tables w' (class_of self) !! k = Some self'))
  ∧ (self ∈ all_objects (class_of self) w →
     ext_id self ≠ EmptyString →
     ext_id_unique (tables w (class_of self)) →
     ∃ self' w', delete (Some u) (self, w) = (Ok tt, (self', w'))).
Proof.
  cbn zeta. split; [reflexivity|]. split.
  - intros r self' w' H. rewrite delete_unfold in H. cbn zeta in H.
    destruct (save_frame _ _ _ _ _ H) as (Hlog & _ & Hd & Hu & _).
    split; [exact Hd|]. split; [exact Hu|]. split; [exact Hlog|]. split.
    + exact (save_keeps_rows _ _ _ _ _ H).
    + intros Hr. exact (save_ok_stored _ _ _ _ _ H Hr).
  - intros Hin Hext Hu.
    apply elem_of_all_objects in Hin as (k & r0 & Hk & Heq).
    rewrite delete_unfold. cbn zeta. eexists _, _.
    apply (save_of_stored_returns _ _ k r0); try done.
    + cbn. by rewrite Heq.
    + cbn. by rewrite Heq.
Qed.

Lemma delete_soft_deletes_witness :
  incense1 ∈ all_objects (class_of incense1) world1
  ∧ ext_id incense1 ≠ EmptyString
  ∧ ext_id_unique (tables world1 (class_of incense1))
  ∧ delete (Some curator) (incense1, world1) = (Ok tt, (incense4, world4))
  ∧ ∃ self' w', delete (Some curator) (incense1, world1) = (Ok tt, (self', w')).
Proof.
  assert (Hext : ext_id incense1 ≠ EmptyString) by discriminate.
  split; [exact incense1_listed|]. split; [exact Hext|].
  split; [exact world1_unique|]. split; [vm_compute; reflexivity|].
  exact (proj2 (proj2 (delete_soft_deletes incense1 world1 curator))
           incense1_listed Hext world1_unique).
Defined.

(** C6: [is_deleted] answers whether [deleted_at] is set, and leaves
    [self] and the database as they were. *)
Theorem is_deleted_iff_deleted_at self w :
  ∃ b, is_deleted (self, w) = (Ok b, (self, w))
       ∧ (b = true ↔ deleted_at self ≠ None).
Proof.
  exists (bool_decide (deleted_at self ≠ None)). split; [reflexivity|].
  apply bool_decide_eq_true.
Qed.

Lemma set_pk_from_db k r : from_db (k, set_pk (Some k) r) = set_pk (Some k) r.
Proof. reflexivity. Qed.

(** C8: the default manager lists exactly the rows of the class whose
    [deleted_at] is null, by strictly ascending id; [all_objects] lists
    every row.  Soft-deleting a listed record, in a table of [N] rows all
    of them listed, returns and leaves [N - 1] rows in the default
    listing and [N] in the unrestricted one, the deleted record among
    the latter only. *)
Theorem default_listing_hides_soft_deleted cls w :
  (∀ r, r ∈ objects cls w ↔
        ∃ k r0, tables w cls !! k = Some r0 ∧ deleted_at r0 = None
                ∧ r = from_db (k, r0))
  ∧ StronglySorted id_lt (objects cls w)
  ∧ (∀ r, r ∈ all_objects cls w ↔
          ∃ k r0, tables w cls !! k = Some r0 ∧ r = from_db (k, r0))
  ∧ length (all_objects cls w) = size (tables w cls)
  ∧ (∀ self u N,
       self ∈ objects cls w → class_of self = cls → ext_id self ≠ EmptyString →
       ext_id_unique (tables w cls) →
       length (all_objects cls w) = N → length (objects cls w) = N →
       ∃ self' w',
         delete (Some u) (self, w) = (Ok tt, (self', w'))
         ∧ length (objects cls w') = N - 1
         ∧ length (all_objects cls w') = N
         ∧ self' ∈ all_objects cls w'
         ∧ self' ∉ objects cls w').
Proof.
  split; [apply elem_of_objects|]. split; [apply objects_sorted|].
  split; [apply elem_of_all_objects|]. split; [apply length_all_objects|].
  intros self u N Hin Hcls Hext Hu Hall Hobj.
  apply elem_of_objects in Hin as (k & r0 & Hk & Hact & ->).
  set (self1 := set_updated_user (Some u)
                  (set_deleted_at (Some (clock w)) (from_db (k, r0)))).
  set (w1 := logged (entry_for self1 (set_clock (S (clock w)) w) u DELETION
                       (change_message_of "Object soft deleted"))
               (set_clock (S (clock w)) w)).
  assert (Hsave : save (self1, w1) =
            (Ok tt, (stored self1 w1,
                     set_table cls (<[k := stored self1 w1]> (tables w cls))
                       (set_clock (readings self1 w1 + clock w1) w1)))).
  { rewrite save_total; [by rewrite <-Hcls|done|].
    change (class_of self1) with (class_of (from_db (k, r0))). rewrite Hcls.
    change (ext_id self1) with (ext_id r0). cbn.
    by apply ext_id_conflict_own_row. }
  assert (Hdel : deleted_at (stored self1 w1) ≠ None).
  { by destruct (stored_columns self1 w1) as (_ & _ & -> & _). }
  assert (Hpk : stored self1 w1 = set_pk (Some k) (stamped self1 w1)).
  { reflexivity. }
  destruct (soft_delete_counts (tables w cls) k r0 (stored self1 w1) Hk Hact Hdel)
    as [Hsize Hlen].
  exists (stored self1 w1),
    (set_table cls (<[k := stored self1 w1]> (tables w cls))
       (set_clock (readings self1 w1 + clock w1) w1)).
  split; [by rewrite delete_unfold|].
  rewrite length_objects, length_all_objects in *.
  unfold table_rows in *. cbn. rewrite decide_True by done.
  split; [lia|]. split; [congruence|]. split.
  - apply elem_of_all_objects. exists k, (stored self1 w1). cbn.
    rewrite decide_True by done. rewrite lookup_insert_eq. split; [done|].
    rewrite Hpk. by rewrite set_pk_from_db.
  - intros (k' & r' & _ & Hact' & Heq)%elem_of_objects.
    apply Hdel. rewrite Heq. exact Hact'.
Qed.

Lemma default_listing_hides_soft_deleted_witness :
  incense1 ∈ objects Product world1
  ∧ length (all_objects Product world1) = 1
  ∧ length (objects Product world1) = 1
  ∧ ∃ self' w',
      delete (Some curator) (incense1, world1) = (Ok tt, (self', w'))
      ∧ length (objects Product w') = 1 - 1
      ∧ length (all_objects Product w') = 1
      ∧ self' ∈ all_objects Product w'
      ∧ self' ∉ objects Product w'.
Proof.
  assert (Hin : incense1 ∈ objects Product world1).
  { apply (bool_decide_unpack _). vm_compute. exact I. }
  assert (Hu : ext_id_unique (tables world1 Product)).
  { rewrite world1_products. apply ext_id_unique_insert.
    - apply ext_id_unique_empty.
    - vm_compute. reflexivity. }
  assert (Hall : length (all_objects Product world1) = 1) by (vm_compute; reflexivity).
  assert (Hobj : length (objects Product world1) = 1) by (vm_compute; reflexivity).
  split; [exact Hin|]. split; [exact Hall|]. split; [exact Hobj|].
  apply (proj2 (proj2 (proj2 (proj2
           (default_listing_hides_soft_deleted Product world1))))
           incense1 curator 1 Hin); [reflexivity|discriminate|exact Hu|exact Hall|exact Hobj].
Defined.

(** ** The audit log *)

(** C9: [all_logs] returns the log entries whose content type is that
    of [self]'s class and whose object id is [self]'s key, each as often
    as the log has it, latest action first, and changes neither [self]
    nor the database.  The entries that [log_action] writes for a record
    with a key are of that kind. *)
Theorem all_logs_lists_own_entries self w :
  ∃ logs,
    all_logs (self, w) = (Ok logs, (self, w))
    ∧ logs ≡ₚ filter (λ e, content_type_id e = content_types w (class_of self)
                           ∧ object_id e = pretty <$> pk self) (log_entries w)
    ∧ (∀ e, e ∈ logs ↔
            e ∈ log_entries w
            ∧ content_type_id e = content_types w (class_of self)
            ∧ object_id e = pretty <$> pk self)
    ∧ StronglySorted action_time_ge logs
    ∧ (∀ k u flag message w0,
         pk self = Some k → content_types w0 = content_types w →
         content_type_id (entry_for self w0 u flag message)
           = content_types w (class_of self)
         ∧ object_id (entry_for self w0 u flag message) = pretty <$> pk self).
Proof.
  eexists. split; [reflexivity|]. split; [apply merge_sort_Permutation|].
  split; [|split].
  - intros e. rewrite merge_sort_Permutation, list_elem_of_filter. tauto.
  - apply StronglySorted_merge_sort; apply _.
  - intros k u flag message w0 Hk Hct. cbn. by rewrite Hk, Hct.
Qed.

(** C10: with no updated-by user on record, [restore] raises and writes
    no log entry.  [deleted_at] is cleared all the same; and when the
    [save] inside succeeds, the exception is the [AttributeError] of
    [user.pk] in [log_action], raised after the row has been stored with
    [deleted_at] null. *)
Theorem restore_fails_without_updated_user self w :
  updated_user self = None →
  ∃ e self' w',
    restore (self, w) = (Raise e, (self', w'))
    ∧ log_entries w' = log_entries w
    ∧ deleted_at self' = None
    ∧ (∀ self1 w1,
         save (set_deleted_at None self, w) = (Ok tt, (self1, w1)) →
         e = AttributeError "'NoneType' object has no attribute 'pk'"
         ∧ self' = self1 ∧ w' = w1
         ∧ ∃ k, pk self1 = Some k ∧ tables w1 (class_of self) !! k = Some self1).
Proof.
  intros Hnone. rewrite restore_unfold.
  destruct (save (set_deleted_at None self, w)) as [[[]|x] [self1 w1]] eqn:Hs;
    destruct (save_frame _ _ _ _ _ Hs) as (Hlog & _ & Hd & Hu & _);
    cbn in Hd, Hu; rewrite Hnone in Hu.
  - rewrite Hu, log_action_no_user. eexists _, _, _.
    split; [reflexivity|]. split; [done|]. split; [done|].
    intros ? ? [= <- <-]. split; [done|]. split; [done|]. split; [done|].
    exact (save_ok_stored _ _ _ _ _ Hs eq_refl).
  - eexists _, _, _. split; [reflexivity|]. split; [done|]. split; [done|].
    intros ? ? [=].
Qed.

Lemma restore_fails_without_updated_user_witness :
  updated_user incense1 = None
  ∧ ∃ e self' w',
      restore (incense1, world1) = (Raise e, (self', w'))
      ∧ log_entries w' = log_entries world1
      ∧ deleted_at self' = None
      ∧ (∀ self1 w1,
           save (set_deleted_at None incense1, world1) = (Ok tt, (self1, w1)) →
           e = AttributeError "'NoneType' object has no attribute 'pk'"
           ∧ self' = self1 ∧ w' = w1
           ∧ ∃ k, pk self1 = Some k ∧ tables w1 (class_of incense1) !! k = Some self1).
Proof.
  split; [reflexivity|].
  apply (restore_fails_without_updated_user incense1 world1). reflexivity.
Defined.

(** C5 at a soft-deleted product whose updated-by reference is null:
    [restore] clears [deleted_at] and stores the row, then raises in
    [log_action]; the log still holds the deletion entry alone, and no
    "Object restored" entry. *)
Theorem restore_orphan_writes_no_entry :
  delete (Some curator) (incense1, world1) = (Ok tt, (incense4, world4))
  ∧ orphan ∈ all_objects Product world5
  ∧ is_deleted (orphan, world5) = (Ok true, (orphan, world5))
  ∧ updated_user orphan = None
  ∧ restore (orphan, world5)
    = (Raise (AttributeError "'NoneType' object has no attribute 'pk'"),
       (orphan6, world6))
  ∧ deleted_at orphan6 = None
  ∧ tables world6 Product !! 1 = Some orphan6
  ∧ log_entries world6 = log_entries world5
  ∧ action_flag <$> log_entries world6 = [DELETION].
Proof.
  split_and!; try (vm_compute; reflexivity).
  apply elem_of_all_objects. exists 1, orphan. split; vm_compute; reflexivity.
Qed.

(** ** The life of one record

    A product is saved, soft-deleted by [curator] and restored: it gets
    its external id, leaves the default listing while it stays in the
    unrestricted one, comes back, and its log reads restoration first,
    deletion second. *)
Example incense_scenario :
  save (incense, world0) = (Ok tt, (incense1, world1))
  ∧ ext_id incense1 = "aaaaaaaaaa"
  ∧ delete (Some curator) (incense1, world1) = (Ok tt, (incense4, world4))
  ∧ objects Product world4 = []
  ∧ all_objects Product world4 = [incense4]
  ∧ deleted_at incense4 = Some 102
  ∧ (∃ self' w',
       restore (incense4, world4) = (Ok tt, (self', w'))
       ∧ deleted_at self' = None
       ∧ objects Product w' = [self']
       ∧ (∃ logs, all_logs (self', w') = (Ok logs, (self', w'))
                  ∧ action_flag <$> logs = [CHANGE; DELETION]
                  ∧ change_message <$> logs =
                      [ "{'message': 'Object restored', 'is_admin': False, 'code': None}";
                        "{'message': 'Object soft deleted', 'is_admin': False, 'code': None}" ])).
Proof.
  split_and!; try (vm_compute; reflexivity).
  eexists _, _. split; [vm_compute; reflexivity|].
  split_and!; try (vm_compute; reflexivity).
  eexists. split_and!; vm_compute; reflexivity.
Qed.

(** * Further properties of the methods *)

(** ** Inverting [save] *)

(** The only exception [generate_unique_ext] raises is [RecursionError]. *)
Lemma generate_unique_ext_rec_raise depth instance length w x w' :
  generate_unique_ext_rec depth instance length w = (Raise x, w') →
  x = RecursionError.
Proof.
  revert w. induction depth as [|d IH]; intros w H.
  - cbn in H. unfold throw in H. by injection H as <- _.
  - destruct (generate_unique_ext_rec_step d instance length w) as (cand & _ & Hstep).
    rewrite Hstep in H. destruct (objects_filter_ext_id_exists _ _ _); [eauto|done].
Qed.

Lemma length_10_nonempty (s : string) : String.length s = 10 → s ≠ EmptyString.
Proof. by intros H ->. Qed.

(** A [save] that returns: the external id in force is [e0], kept from
    [self] or freshly generated, and the row is written under the key of
    [self] or under a new one. *)
Lemma save_ok_inv self w self' w' :
  save (self, w) = (Ok tt, (self', w')) →
  ∃ e0 p,
    let self0 := set_ext_id e0 self in
    let w0 := set_rng_pos p w in
    let table := tables w (class_of self) in
    let k := default (auto_id table) (pk self) in
    self' = stored self0 w0
    ∧ w' = set_table (class_of self) (<[k := self']> table)
             (set_clock (readings self0 w0 + clock w) w0)
    ∧ ext_id_conflict table k e0 = false
    ∧ e0 ≠ EmptyString
    ∧ (ext_id self ≠ EmptyString → e0 = ext_id self ∧ p = rng_pos w)
    ∧ (ext_id self = EmptyString →
         generate_unique_ext self 10 w = (Ok e0, set_rng_pos p w)).
Proof.
  intros H. remember (Ok tt) as r eqn:Hr. save_cases H; try done.
  exists e, p. cbn zeta. split; [done|]. split; [done|]. split; [exact Hc|].
  case_bool_decide as Hext.
  - destruct (generate_unique_ext_spec _ _ _ _ _ Hgen) as [_ Hspec].
    destruct (Hspec e eq_refl) as (Hlen & _ & _).
    split; [by apply length_10_nonempty|]. split; [done|]. done.
  - destruct Hgen as [-> ->]. split; [done|]. split; done.
Qed.

(** A [save] that raises: either no external id could be generated, and
    nothing but the random source has moved, or the unique index refused
    the row, and [self] keeps the timestamps and the external id it was
    given on the way. *)
Lemma save_raise_inv self w x self' w' :
  save (self, w) = (Raise x, (self', w')) →
  (x = RecursionError ∧ ext_id self = EmptyString ∧ self' = self
   ∧ ∃ p, w' = set_rng_pos p w)
  ∨ (x = unique_violation (class_of self)
     ∧ ∃ e0 p,
         self' = stamped (set_ext_id e0 self) (set_rng_pos p w)
         ∧ w' = set_clock (readings (set_ext_id e0 self) (set_rng_pos p w) + clock w)
                  (set_rng_pos p w)
         ∧ e0 ≠ EmptyString
         ∧ ext_id_conflict (tables w (class_of self))
             (default (auto_id (tables w (class_of self))) (pk self)) e0 = true
         ∧ (ext_id self ≠ EmptyString → e0 = ext_id self)
         ∧ (ext_id self = EmptyString →
              generate_unique_ext self 10 w = (Ok e0, set_rng_pos p w))).
Proof.
  intros H. rewrite save_unfold in H. case_bool_decide as Hext.
  - destruct (generate_unique_ext self 10 w) as [[e|y] w1] eqn:Hgen.
    + destruct (generate_unique_ext_spec _ _ _ _ _ Hgen) as [[p ->] Hspec].
      destruct (Hspec e eq_refl) as (Hlen & _ & _).
      apply Model_save_inv in H as [(Hc & [= ->] & -> & ->)|(_ & [=] & _)].
      right. split; [done|]. exists e, p.
      split; [done|]. split; [done|]. split; [by apply length_10_nonempty|].
      split; [exact Hc|]. split; done.
    + injection H as <- <- <-. left.
      pose proof (generate_unique_ext_rec_raise _ _ _ _ _ _ Hgen) as ->.
      destruct (generate_unique_ext_spec _ _ _ _ _ Hgen) as [[p ->] _].
      split; [done|]. split; [done|]. split; [done|]. by exists p.
  - apply Model_save_inv in H as [(Hc & [= ->] & -> & ->)|(_ & [=] & _)].
    right. split; [done|]. exists (ext_id self), (rng_pos w).
    rewrite set_ext_id_same, set_rng_pos_same.
    split; [done|]. split; [done|]. split; [done|]. split; [exact Hc|]. split; done.
Qed.

(** What [save] keeps, in every outcome. *)
Lemma save_keeps self w r self' w' :
  save (self, w) = (r, (self', w')) →
  (ext_id self ≠ EmptyString → ext_id self' = ext_id self)
  ∧ (r = Ok tt → ext_id self' ≠ EmptyString)
  ∧ (∀ k, pk self = Some k → pk self' = Some k)
  ∧ fields self' = fields self
  ∧ (∀ cls, cls ≠ class_of self → tables w' cls = tables w cls)
  ∧ content_types w' = content_types w
  ∧ (∀ x, r = Raise x → tables w' = tables w ∧ pk self' = pk self).
Proof.
  intros H. destruct r as [[]|x].
  - destruct (save_ok_inv _ _ _ _ H) as (e0 & p & -> & -> & Hc & Hne & Hset & _).
    destruct (stored_columns (set_ext_id e0 self) (set_rng_pos p w))
      as (Hpk & Hext & _ & _ & Hf & _).
    split_and!; try done.
    + intros Hs. rewrite Hext. cbn. by destruct (Hset Hs).
    + intros _. by rewrite Hext.
    + intros k Hk. rewrite Hpk. cbn. by rewrite Hk.
    + intros cls Hcls. cbn. by rewrite decide_False.
  - destruct (save_raise_inv _ _ _ _ _ H)
      as [(-> & Hext & -> & p & ->)|(-> & e0 & p & -> & -> & Hne & _ & Hset & _)].
    + split_and!; done.
    + destruct (stamped_columns (set_ext_id e0 self) (set_rng_pos p w))
        as (Hpk & Hext & _ & _ & Hf).
      split_and!; try done.
      * intros Hs. rewrite Hext. cbn. by rewrite (Hset Hs).
      * intros k Hk. by rewrite Hpk.
Qed.

(** [log_action] either raises on an absent user and changes nothing, or
    appends one entry stamped with the clock. *)
Lemma log_action_inv user flag message is_admin code self w r self' w' :
  log_action user flag message is_admin code (self, w) = (r, (self', w')) →
  self' = self
  ∧ ((user = None
      ∧ r = Raise (AttributeError "'NoneType' object has no attribute 'pk'")
      ∧ w' = w)
     ∨ (∃ u cm, user = Some u ∧ r = Ok tt
                ∧ w' = logged (entry_for self w u flag cm) w)).
Proof.
  destruct user as [u|]; unfold log_action, LogEntry_log_action; run_monad;
    intros [= <- <- <-]; (split; [done|]); [right|left]; eauto.
Qed.

(** Every call but [delete()] without a user is one [save], with a log
    entry written before it or after it. *)
Lemma call_inv c self w r self' w' :
  call c (self, w) = (r, (self', w')) →
  (c = CallDelete None
   ∧ r = Raise (ValueError "User must be provided for logging delete action.")
   ∧ self' = self ∧ w' = w)
  ∨ (∃ self0 w0 r1 self1 w1,
       save (self0, w0) = (r1, (self1, w1))
       ∧ pk self0 = pk self ∧ ext_id self0 = ext_id self
       ∧ fields self0 = fields self
       ∧ tables w0 = tables w ∧ content_types w0 = content_types w
       ∧ self' = self1
       ∧ tables w' = tables w1 ∧ content_types w' = content_types w1
       ∧ (r = Ok tt → r1 = Ok tt)).
Proof.
  intros H. destruct c as [|[u|]|]; cbn [call] in H.
  - right. exists self, w, r, self', w'. split_and!; done.
  - right. rewrite delete_unfold in H. cbn zeta in H.
    eexists _, _, r, self', w'. split; [exact H|]. split_and!; done.
  - left. unfold delete, throw in H. by injection H as <- <- <-.
  - right. rewrite restore_unfold in H.
    destruct (save (set_deleted_at None self, w)) as [[[]|x] [self1 w1]] eqn:Hs.
    + apply log_action_inv in H as [-> Hw].
      exists (set_deleted_at None self), w, (Ok tt), self1, w1.
      split; [done|]. split_and!; try done;
        destruct Hw as [(_ & _ & ->)|(u & cm & _ & _ & ->)]; done.
    + injection H as <- <- <-.
      exists (set_deleted_at None self), w, (Raise x), self1, w1.
      split; [done|]. split_and!; done.
Qed.

(** ** The external id, once set *)

(** X1.  No call changes an external id that is set, whether the call
    returns or raises; and after a call that returns, the external id is
    set. *)
Theorem ext_id_is_assigned_once c self w r self' w' :
  call c (self, w) = (r, (self', w')) →
  (ext_id self ≠ EmptyString → ext_id self' = ext_id self)
  ∧ (r = Ok tt → ext_id self' ≠ EmptyString).
Proof.
  intros H. apply call_inv in H
    as [(-> & -> & -> & ->)|(self0 & w0 & r1 & self1 & w1 & Hs & _ & He & _ & _ & _ & -> & _ & _ & Hr)].
  - done.
  - destruct (save_keeps _ _ _ _ _ Hs) as (Hset & Hok & _).
    rewrite He in Hset. split; [exact Hset|]. intros ->. by apply Hok, Hr.
Qed.

Lemma ext_id_is_assigned_once_witness :
  call (CallDelete (Some curator)) (incense1, world1) = (Ok tt, (incense4, world4))
  ∧ (ext_id incense1 ≠ EmptyString → ext_id incense4 = ext_id incense1)
  ∧ (Ok tt = Ok tt → ext_id incense4 ≠ EmptyString).
Proof.
  assert (Hc : call (CallDelete (Some curator)) (incense1, world1)
               = (Ok tt, (incense4, world4))).
  { vm_compute. reflexivity. }
  split; [exact Hc|].
  exact (ext_id_is_assigned_once _ _ _ _ _ _ Hc).
Defined.

(** ** What a call writes *)

(** A call appends at most one entry to the log and changes none. *)
Lemma call_log c self w r self' w' :
  call c (self, w) = (r, (self', w')) →
  log_entries w' = log_entries w ∨ ∃ e, log_entries w' = log_entries w ++ [e].
Proof.
  intros H. destruct c as [|[u|]|]; cbn [call] in H.
  - destruct (save_frame _ _ _ _ _ H) as (-> & _). by left.
  - rewrite delete_unfold in H. cbn zeta in H.
    destruct (save_frame _ _ _ _ _ H) as (-> & _). right. by eexists.
  - unfold delete, throw in H. injection H as <- <- <-. by left.
  - rewrite restore_unfold in H.
    destruct (save (set_deleted_at None self, w)) as [[[]|x] [self1 w1]] eqn:Hs;
      destruct (save_frame _ _ _ _ _ Hs) as (Hlog & _).
    + apply log_action_inv in H as [-> [(_ & _ & ->)|(u & cm & _ & _ & ->)]].
      * left. by rewrite Hlog.
      * right. cbn. rewrite Hlog. by eexists.
    + injection H as <- <- <-. left. by rewrite Hlog.
Qed.

Lemma call_extends_log c self w r self' w' :
  call c (self, w) = (r, (self', w')) →
  log_entries w `prefix_of` log_entries w'.
Proof.
  intros H. destruct (call_log _ _ _ _ _ _ H) as [->|[e ->]]; [done|by eexists].
Qed.

(** X2.  A call on [self] leaves the tables of the other concrete
    classes as they are.  Besides the table of [self]'s own class it
    writes the log only, where it changes no entry and appends at most
    one; the class of [self] and the content types stay. *)
Theorem calls_write_own_table_and_log_only c self w r self' w' :
  call c (self, w) = (r, (self', w')) →
  (∀ cls, cls ≠ class_of self → tables w' cls = tables w cls)
  ∧ (log_entries w' = log_entries w ∨ ∃ e, log_entries w' = log_entries w ++ [e])
  ∧ class_of self' = class_of self
  ∧ content_types w' = content_types w.
Proof.
  intros H. pose proof (call_log _ _ _ _ _ _ H) as Hlog.
  apply call_inv in H
    as [(-> & -> & -> & ->)
       |(self0 & w0 & r1 & self1 & w1 & Hs & _ & _ & Hf & Ht & Hct & -> & Ht' & Hct' & _)].
  - done.
  - destruct (save_keeps _ _ _ _ _ Hs) as (_ & _ & _ & Hf1 & Hother & Hct1 & _).
    unfold class_of in *. rewrite Hf in *. split_and!.
    + intros cls Hcls. rewrite Ht', <-Ht. by apply Hother.
    + exact Hlog.
    + by rewrite Hf1.
    + by rewrite Hct', Hct1.
Qed.

Lemma calls_write_own_table_and_log_only_witness :
  call (CallDelete (Some curator)) (incense1, world1) = (Ok tt, (incense4, world4))
  ∧ length (log_entries world1) = 0 ∧ length (log_entries world4) = 1
  ∧ (∀ cls, cls ≠ class_of incense1 → tables world4 cls = tables world1 cls)
  ∧ (log_entries world4 = log_entries world1
     ∨ ∃ e, log_entries world4 = log_entries world1 ++ [e])
  ∧ class_of incense4 = class_of incense1
  ∧ content_types world4 = content_types world1.
Proof.
  assert (Hc : call (CallDelete (Some curator)) (incense1, world1)
               = (Ok tt, (incense4, world4))).
  { vm_compute. reflexivity. }
  split; [exact Hc|]. split; [reflexivity|]. split; [reflexivity|].
  exact (calls_write_own_table_and_log_only _ _ _ _ _ _ Hc).
Defined.

(** X3.  A [save] that raises has written nothing: the tables and the
    log are as before and [self] has no new key.  An external id that
    was set is unchanged; and when [self] holds an external id
    afterwards, its own or one generated before the row was refused,
    [save] on it raises the same exception again and generates no other
    id, the tables being the same. *)
Theorem failed_save_is_repeated self w x self' w' :
  save (self, w) = (Raise x, (self', w')) →
  tables w' = tables w
  ∧ log_entries w' = log_entries w
  ∧ pk self' = pk self
  ∧ (ext_id self ≠ EmptyString → ext_id self' = ext_id self)
  ∧ (ext_id self' ≠ EmptyString →
       ∃ self2 w2,
         save (self', w') = (Raise x, (self2, w2))
         ∧ ext_id self2 = ext_id self'
         ∧ rng_pos w2 = rng_pos w'
         ∧ tables w2 = tables w).
Proof.
  intros H.
  destruct (save_raise_inv _ _ _ _ _ H)
    as [(-> & Hext & -> & p & ->)|(-> & e0 & p & -> & -> & Hne & Hc & Hset & _)].
  - split_and!; try done.
  - destruct (stamped_columns (set_ext_id e0 self) (set_rng_pos p w))
      as (Hpk & Hext & _ & _ & Hf).
    split_and!; try done.
    + intros Hs. rewrite Hext. cbn. by rewrite (Hset Hs).
    + intros Hne'.
      set (self1 := stamped (set_ext_id e0 self) (set_rng_pos p w)) in *.
      set (w1 := set_clock _ _).
      assert (Hcls : class_of self1 = class_of self).
      { unfold class_of. by rewrite Hf. }
      rewrite save_unfold, bool_decide_false, Model_save_unfold by done.
      cbn zeta. rewrite Hcls, Hpk, Hext. cbn [pk ext_id set_ext_id].
      change (tables w1) with (tables w). rewrite Hc.
      eexists _, _. split; [reflexivity|].
      destruct (stamped_columns self1 w1) as (_ & -> & _). done.
Qed.

Lemma failed_save_is_repeated_witness :
  save (lamp, world4)
    = (Raise (IntegrityError "UNIQUE constraint failed: core_product.ext_id"),
       (lamp9, world9))
  ∧ ext_id lamp = EmptyString ∧ ext_id lamp9 = "aaaaaaaaaa"
  ∧ tables world9 = tables world4
  ∧ log_entries world9 = log_entries world4
  ∧ pk lamp9 = pk lamp
  ∧ (ext_id lamp ≠ EmptyString → ext_id lamp9 = ext_id lamp)
  ∧ (ext_id lamp9 ≠ EmptyString →
       ∃ self2 w2,
         save (lamp9, world9)
         = (Raise (IntegrityError "UNIQUE constraint failed: core_product.ext_id"),
            (self2, w2))
         ∧ ext_id self2 = ext_id lamp9
         ∧ rng_pos w2 = rng_pos world9
         ∧ tables w2 = tables world4).
Proof.
  assert (Hs : save (lamp, world4)
               = (Raise (IntegrityError "UNIQUE constraint failed: core_product.ext_id"),
                  (lamp9, world9))).
  { vm_compute. reflexivity. }
  split; [exact Hs|]. split; [reflexivity|]. split; [reflexivity|].
  exact (failed_save_is_repeated _ _ _ _ _ Hs).
Defined.

(** ** Insert and update *)

(** X5.  Saving an instance whose key names a row overwrites that row with
    the instance: the key stays, the table keeps its size, every other
    row is as before, [created_at] is left alone and [updated_at] is the
    time of the call. *)
Theorem save_with_key_updates self w self' w' k r0 :
  pk self = Some k →
  tables w (class_of self) !! k = Some r0 →
  save (self, w) = (Ok tt, (self', w')) →
  pk self' = Some k
  ∧ tables w' (class_of self) !! k = Some self'
  ∧ size (tables w' (class_of self)) = size (tables w (class_of self))
  ∧ (∀ k', k' ≠ k →
       tables w' (class_of self) !! k' = tables w (class_of self) !! k')
  ∧ created_at self' = created_at self
  ∧ updated_at self' = Some (clock w).
Proof.
  intros Hpk Hrow H.
  destruct (save_ok_inv _ _ _ _ H) as (e0 & p & Hs & -> & _).
  cbn zeta in Hs. rewrite Hpk. cbn [default].
  destruct (stored_columns (set_ext_id e0 self) (set_rng_pos p w))
    as (Hk & _ & _ & _ & _ & Hupd & Hcre).
  rewrite <-Hs in Hk, Hupd, Hcre.
  cbn in Hk, Hupd, Hcre.
  change (class_of (set_ext_id e0 self)) with (class_of self) in Hupd, Hcre.
  rewrite Hpk in Hk, Hupd, Hcre. cbn in Hk.
  rewrite bool_decide_true in Hupd, Hcre by (by rewrite Hrow).
  split; [exact Hk|]. cbn. rewrite decide_True by done. split_and!.
  - apply lookup_insert_eq.
  - by eapply map_size_insert_Some.
  - intros k' Hne. by rewrite lookup_insert_ne.
  - exact Hcre.
  - exact Hupd.
Qed.

Lemma save_with_key_updates_witness :
  pk (set_deleted_at None incense4) = Some 1
  ∧ tables world4 (class_of incense4) !! 1 = Some incense4
  ∧ save (set_deleted_at None incense4, world4) = (Ok tt, (incense10, world10))
  ∧ pk incense10 = Some 1
  ∧ tables world10 (class_of incense4) !! 1 = Some incense10
  ∧ size (tables world10 (class_of incense4)) = size (tables world4 (class_of incense4))
  ∧ (∀ k', k' ≠ 1 →
       tables world10 (class_of incense4) !! k' = tables world4 (class_of incense4) !! k')
  ∧ created_at incense10 = created_at incense4
  ∧ updated_at incense10 = Some (clock world4).
Proof.
  assert (Hrow : tables world4 (class_of incense4) !! 1 = Some incense4).
  { vm_compute. reflexivity. }
  assert (Hs : save (set_deleted_at None incense4, world4) = (Ok tt, (incense10, world10))).
  { vm_compute. reflexivity. }
  split; [reflexivity|]. split; [exact Hrow|]. split; [exact Hs|].
  exact (save_with_key_updates (set_deleted_at None incense4) world4 incense10 world10
           1 incense4 eq_refl Hrow Hs).
Defined.



(** ** Which candidate [generate_unique_ext] returns *)

Lemma nth_candidate_0 length w :
  generate_ext length w
  = (Ok (nth_candidate length w 0), set_rng_pos (length + rng_pos w) w).
Proof.
  unfold nth_candidate. rewrite Nat.mul_0_l, Nat.add_0_r, set_rng_pos_same.
  by destruct (generate_ext_spec length w) as (s & -> & _).
Qed.

Lemma nth_candidate_S length w i :
  nth_candidate length (set_rng_pos (length + rng_pos w) w) i
  = nth_candidate length w (S i).
Proof.
  unfold nth_candidate. cbn [rng_pos set_rng_pos].
  replace (length + rng_pos w + i * length) with (rng_pos w + S i * length) by lia.
  reflexivity.
Qed.

Lemma generate_unique_ext_rec_first_free instance length n :
  ∀ depth w,
    n < depth →
    (∀ i, i < n →
       objects_filter_ext_id_exists (class_of instance) (nth_candidate length w i) w = true) →
    objects_filter_ext_id_exists (class_of instance) (nth_candidate length w n) w = false →
    generate_unique_ext_rec depth instance length w
    = (Ok (nth_candidate length w n), set_rng_pos (rng_pos w + S n * length) w).
Proof.
  induction n as [|n IH]; intros [|d] w Hd Htaken Hfree; try lia.
  - destruct (generate_unique_ext_rec_step d instance length w) as (cand & Hg & ->).
    rewrite nth_candidate_0 in Hg. injection Hg as <-. rewrite Hfree.
    do 2 f_equal. lia.
  - destruct (generate_unique_ext_rec_step d instance length w) as (cand & Hg & ->).
    rewrite nth_candidate_0 in Hg. injection Hg as <-.
    rewrite (Htaken 0) by lia.
    rewrite (IH d (set_rng_pos (length + rng_pos w) w)); [| lia | |].
    + rewrite nth_candidate_S. cbn [rng_pos set_rng_pos].
      replace (length + rng_pos w + S n * length) with (rng_pos w + S (S n) * length) by lia.
      reflexivity.
    + intros i Hi. rewrite nth_candidate_S.
      rewrite (objects_filter_ext_id_exists_tables _ _ w) by done.
      apply Htaken. lia.
    + rewrite nth_candidate_S.
      by rewrite (objects_filter_ext_id_exists_tables _ _ w).
Qed.

Lemma generate_unique_ext_rec_exhausted instance length depth :
  ∀ w,
    (∀ i, i < depth →
       objects_filter_ext_id_exists (class_of instance) (nth_candidate length w i) w = true) →
    generate_unique_ext_rec depth instance length w
    = (Raise RecursionError, set_rng_pos (rng_pos w + depth * length) w).
Proof.
  induction depth as [|d IH]; intros w Htaken.
  - cbn. unfold throw. by rewrite Nat.add_0_r, set_rng_pos_same.
  - destruct (generate_unique_ext_rec_step d instance length w) as (cand & Hg & ->).
    rewrite nth_candidate_0 in Hg. injection Hg as <-.
    rewrite (Htaken 0) by lia.
    rewrite (IH (set_rng_pos (length + rng_pos w) w)).
    + cbn [rng_pos set_rng_pos].
      replace (length + rng_pos w + d * length) with (rng_pos w + S d * length) by lia.
      reflexivity.
    + intros i Hi. rewrite nth_candidate_S.
      rewrite (objects_filter_ext_id_exists_tables _ _ w) by done.
      apply Htaken. lia.
Qed.

(** X7.  [generate_unique_ext] returns the first candidate, in the order the
    random source yields them, that no listed row of the class holds,
    provided it comes within the recursion limit; it has then consumed
    the draws of that candidate and of the ones refused before it, and
    nothing else of the database has changed. *)
Theorem generate_unique_ext_returns_first_free instance length w n :
  n < recursion_limit w →
  (∀ i, i < n →
     objects_filter_ext_id_exists (class_of instance) (nth_candidate length w i) w = true) →
  objects_filter_ext_id_exists (class_of instance) (nth_candidate length w n) w = false →
  generate_unique_ext instance length w
  = (Ok (nth_candidate length w n), set_rng_pos (rng_pos w + S n * length) w).
Proof. apply generate_unique_ext_rec_first_free. Qed.

Lemma generate_unique_ext_returns_first_free_witness :
  1 < recursion_limit world1
  ∧ nth_candidate 10 world1 0 = "aaaaaaaaaa"
  ∧ nth_candidate 10 world1 1 = "bbbbbbbbbb"
  ∧ objects_filter_ext_id_exists (class_of lamp) (nth_candidate 10 world1 0) world1 = true
  ∧ objects_filter_ext_id_exists (class_of lamp) (nth_candidate 10 world1 1) world1 = false
  ∧ generate_unique_ext lamp 10 world1
    = (Ok (nth_candidate 10 world1 1), set_rng_pos (rng_pos world1 + 2 * 10) world1).
Proof.
  assert (Hlim : 1 < recursion_limit world1) by (vm_compute; lia).
  assert (H0 : objects_filter_ext_id_exists (class_of lamp)
                 (nth_candidate 10 world1 0) world1 = true).
  { vm_compute. reflexivity. }
  assert (H1 : objects_filter_ext_id_exists (class_of lamp)
                 (nth_candidate 10 world1 1) world1 = false).
  { vm_compute. reflexivity. }
  split; [exact Hlim|]. split; [vm_compute; reflexivity|].
  split; [vm_compute; reflexivity|]. split; [exact H0|]. split; [exact H1|].
  apply (generate_unique_ext_returns_first_free lamp 10 world1 1 Hlim); [|exact H1].
  intros i Hi. assert (i = 0) as -> by lia. exact H0.
Defined.

(** X8.  When every candidate within the recursion limit is held by a listed
    row, [generate_unique_ext] raises [RecursionError], having consumed
    the draws of all of them. *)
Theorem generate_unique_ext_gives_up instance length w :
  (∀ i, i < recursion_limit w →
     objects_filter_ext_id_exists (class_of instance) (nth_candidate length w i) w = true) →
  generate_unique_ext instance length w
  = (Raise RecursionError,
     set_rng_pos (rng_pos w + recursion_limit w * length) w).
Proof. apply generate_unique_ext_rec_exhausted. Qed.

Lemma generate_unique_ext_gives_up_witness :
  (∀ i, i < recursion_limit world8 →
     objects_filter_ext_id_exists (class_of lamp) (nth_candidate 10 world8 i) world8 = true)
  ∧ generate_unique_ext lamp 10 world8
    = (Raise RecursionError,
       set_rng_pos (rng_pos world8 + recursion_limit world8 * 10) world8).
Proof.
  assert (H : ∀ i, i < recursion_limit world8 →
     objects_filter_ext_id_exists (class_of lamp) (nth_candidate 10 world8 i) world8 = true).
  { intros i Hi. assert (i = 0) as ->. { cbn in Hi. lia. }
    vm_compute. reflexivity. }
  split; [exact H|].
  exact (generate_unique_ext_gives_up lamp 10 world8 H).
Defined.

(** ** Deleting and restoring *)


Lemma from_db_own k r : pk r = Some k → from_db (k, r) = r.
Proof. destruct r. unfold from_db, set_pk. cbn. by intros ->. Qed.





(** X10.  What [is_deleted] answers after a call follows the call alone, not
    its outcome: true after [delete] with a user, false after [restore],
    unchanged after [save] and after [delete] without a user, even when
    the call raised and no row was written. *)
Theorem is_deleted_follows_the_call c self w r self' w' :
  call c (self, w) = (r, (self', w')) →
  is_deleted (self', w')
  = (Ok match c with
        | CallDelete (Some _) => true
        | CallRestore => false
        | CallSave | CallDelete None => bool_decide (deleted_at self ≠ None)
        end, (self', w')).
Proof.
  intros H.
  change (is_deleted (self', w'))
    with (Ok (bool_decide (deleted_at self' ≠ None)), (self', w')).
  do 2 f_equal. destruct c as [|[u|]|]; cbn [call] in H.
  - destruct (save_frame _ _ _ _ _ H) as (_ & _ & -> & _). done.
  - rewrite delete_unfold in H. cbn zeta in H.
    destruct (save_frame _ _ _ _ _ H) as (_ & _ & -> & _). done.
  - unfold delete, throw in H. by injection H as <- <- <-.
  - rewrite restore_unfold in H.
    destruct (save (set_deleted_at None self, w)) as [[[]|x] [self1 w1]] eqn:Hs;
      destruct (save_frame _ _ _ _ _ Hs) as (_ & _ & Hd & _).
    + apply log_action_inv in H as [-> _]. by rewrite Hd.
    + injection H as <- <- <-. by rewrite Hd.
Qed.

Lemma is_deleted_follows_the_call_witness :
  call (CallDelete (Some curator)) (forged, world7)
    = (Raise (IntegrityError "UNIQUE constraint failed: core_product.ext_id"), (forged11, world11))
  ∧ is_deleted (forged11, world11) = (Ok true, (forged11, world11))
  ∧ objects Product world11 = objects Product world7.
Proof.
  assert (Hc : call (CallDelete (Some curator)) (forged, world7)
    = (Raise (IntegrityError "UNIQUE constraint failed: core_product.ext_id"), (forged11, world11))).
  { vm_compute. reflexivity. }
  split; [exact Hc|].
  split; [exact (is_deleted_follows_the_call _ _ _ _ _ _ Hc)|].
  vm_compute. reflexivity.
Defined.

(** X11.  For a record read from the database through the unrestricted
    manager, with an updated-by user on record and an external id that
    is set, in a table whose external ids are distinct, [restore()]
    returns, whether or not the record was soft-deleted: [deleted_at] is
    null, the row is stored under the same key and listed by the default
    manager, the updated-by user is the one on record, and the log has
    gained exactly one [CHANGE] entry, "Object restored", in that user's
    name. *)
Theorem restore_returns_with_updated_user self w u :
  self ∈ all_objects (class_of self) w →
  updated_user self = Some u →
  ext_id self ≠ EmptyString →
  ext_id_unique (tables w (class_of self)) →
  ∃ self' w' entry,
    restore (self, w) = (Ok tt, (self', w'))
    ∧ deleted_at self' = None
    ∧ updated_user self' = Some u
    ∧ pk self' = pk self
    ∧ self' ∈ objects (class_of self) w'
    ∧ log_entries w' = log_entries w ++ [entry]
    ∧ action_flag entry = CHANGE
    ∧ user_id entry = user_pk u
    ∧ change_message entry
      = "{'message': 'Object restored', 'is_admin': False, 'code': None}".
Proof.
  intros Hin Hu Hext Huniq.
  apply elem_of_all_objects in Hin as (k & r0 & Hk & Heq).
  assert (Hpk : pk self = Some k) by (by rewrite Heq).
  assert (Hs : save (set_deleted_at None self, w)
               = (Ok tt, (stored (set_deleted_at None self) w,
                    set_table (class_of self)
                      (<[k := stored (set_deleted_at None self) w]>
                         (tables w (class_of self)))
                      (set_clock (readings (set_deleted_at None self) w + clock w) w)))).
  { apply (save_of_stored_returns (set_deleted_at None self) w k r0); try done.
    cbn. by rewrite Heq. }
  destruct (restore_with_updated_user _ _ _ _ _ Hu Hs) as (Hr & Hd & Hu').
  destruct (save_ok_stored _ _ _ _ _ Hs eq_refl) as (k' & Hk' & Hrow).
  destruct (save_keeps _ _ _ _ _ Hs) as (_ & _ & Hpk' & _).
  eexists _, _, _. split; [exact Hr|]. split; [exact Hd|]. split; [exact Hu'|].
  split_and!.
  - rewrite Hpk. apply Hpk'. exact Hpk.
  - apply elem_of_objects. eexists k', _. split; [exact Hrow|].
    split; [exact Hd|]. symmetry. by apply from_db_own.
  - reflexivity.
  - reflexivity.
  - reflexivity.
  - reflexivity.
Qed.

Lemma incense4_listed : incense4 ∈ all_objects Product world4.
Proof. apply (bool_decide_unpack _). vm_compute. exact I. Qed.

Lemma world4_products : tables world4 Product = <[1 := incense4]> ∅.
Proof. vm_compute. reflexivity. Qed.

Lemma world4_unique : ext_id_unique (tables world4 Product).
Proof.
  rewrite world4_products. apply ext_id_unique_insert.
  - intros k1 k2 r1 r2 H. by rewrite lookup_empty in H.
  - vm_compute. reflexivity.
Qed.

Lemma restore_returns_with_updated_user_witness :
  incense4 ∈ all_objects (class_of incense4) world4
  ∧ updated_user incense4 = Some curator
  ∧ ext_id incense4 ≠ EmptyString
  ∧ ext_id_unique (tables world4 (class_of incense4))
  ∧ restore (incense4, world4) = (Ok tt, (incense13, world13))
  ∧ ∃ self' w' entry,
      restore (incense4, world4) = (Ok tt, (self', w'))
      ∧ deleted_at self' = None
      ∧ updated_user self' = Some curator
      ∧ pk self' = pk incense4
      ∧ self' ∈ objects (class_of incense4) w'
      ∧ log_entries w' = log_entries world4 ++ [entry]
      ∧ action_flag entry = CHANGE
      ∧ user_id entry = user_pk curator
      ∧ change_message entry
        = "{'message': 'Object restored', 'is_admin': False, 'code': None}".
Proof.
  assert (Hext : ext_id incense4 ≠ EmptyString) by discriminate.
  split; [exact incense4_listed|]. split; [reflexivity|]. split; [exact Hext|].
  split; [exact world4_unique|]. split; [vm_compute; reflexivity|].
  exact (restore_returns_with_updated_user incense4 world4 curator
           incense4_listed eq_refl Hext world4_unique).
Defined.



(** X13.  A [restore()] that raises has cleared [self.deleted_at] and written
    no log entry; unless it is the [AttributeError] of the absent user,
    it has written no row either, so a soft-deleted row stays
    soft-deleted while [self] says otherwise. *)
Theorem failed_restore_clears_self_only self w x self' w' :
  restore (self, w) = (Raise x, (self', w')) →
  deleted_at self' = None
  ∧ log_entries w' = log_entries w
  ∧ (x ≠ AttributeError "'NoneType' object has no attribute 'pk'" →
       tables w' = tables w ∧ pk self' = pk self).
Proof.
  intros H. rewrite restore_unfold in H.
  destruct (save (set_deleted_at None self, w)) as [[[]|y] [self1 w1]] eqn:Hs;
    destruct (save_frame _ _ _ _ _ Hs) as (Hlog & _ & Hd & _).
  - apply log_action_inv in H
      as [-> [(_ & [= <-] & ->)|(u & cm & _ & [=] & _)]].
    split; [exact Hd|]. split; [exact Hlog|]. done.
  - injection H as <- <- <-.
    destruct (save_keeps _ _ _ _ _ Hs) as (_ & _ & _ & _ & _ & _ & Hraise).
    split; [exact Hd|]. split; [exact Hlog|]. intros _. exact (Hraise y eq_refl).
Qed.

Lemma failed_restore_clears_self_only_witness :
  restore (forged, world7)
    = (Raise (IntegrityError "UNIQUE constraint failed: core_product.ext_id"), (forged12, world12))
  ∧ deleted_at forged12 = None
  ∧ log_entries world12 = log_entries world7
  ∧ tables world12 = tables world7.
Proof.
  assert (Hr : restore (forged, world7)
    = (Raise (IntegrityError "UNIQUE constraint failed: core_product.ext_id"), (forged12, world12))).
  { vm_compute. reflexivity. }
  split; [exact Hr|].
  destruct (failed_restore_clears_self_only _ _ _ _ _ Hr) as (H1 & H2 & H3).
  split; [exact H1|]. split; [exact H2|].
  apply H3. discriminate.
Defined.

(** ** Soft-deleted rows and the unique index *)

(** X14.  The candidate test passes over soft-deleted rows, the unique index
    does not.  When [generate_unique_ext] returns, for an instance never
    saved (without key) and without external id, an id that a row of its
    table already holds, that row is soft-deleted, and [save] raises the
    [IntegrityError] of the unique index: no row is written, and [self]
    is left without key, holding the refused id. *)
Theorem save_refused_on_soft_deleted_id self w e w1 k r0 :
  ext_id self = EmptyString →
  generate_unique_ext self 10 w = (Ok e, w1) →
  tables w (class_of self) !! k = Some r0 →
  ext_id r0 = e →
  pk self = None →
  deleted_at r0 ≠ None
  ∧ ∃ self' w',
      save (self, w) = (Raise (unique_violation (class_of self)), (self', w'))
      ∧ ext_id self' = e
      ∧ pk self' = None
      ∧ tables w' = tables w.
Proof.
  intros Hext Hgen Hrow He Hpk.
  destruct (generate_unique_ext_spec _ _ _ _ _ Hgen) as [[p ->] Hspec].
  destruct (Hspec e eq_refl) as (_ & _ & Hno).
  split.
  - intros Hact. apply bool_decide_eq_false in Hno. apply Hno.
    apply Exists_exists. exists (from_db (k, r0)). split; [|exact He].
    apply elem_of_objects. by exists k, r0.
  - rewrite save_unfold, bool_decide_true, Hgen, Model_save_unfold by done.
    cbn zeta.
    change (class_of (set_ext_id e self)) with (class_of self).
    change (tables (set_rng_pos p w)) with (tables w).
    assert (Hc : ext_id_conflict (tables w (class_of self))
                   (default (auto_id (tables w (class_of self)))
                      (pk (set_ext_id e self))) (ext_id (set_ext_id e self)) = true).
    { apply bool_decide_eq_true. apply map_Exists_lookup.
      exists k, r0. split; [exact Hrow|]. split; [|exact He].
      cbn. rewrite Hpk. cbn.
      intros ->. by rewrite auto_id_fresh in Hrow. }
    rewrite Hc. eexists _, _. split; [reflexivity|].
    destruct (stamped_columns (set_ext_id e self) (set_rng_pos p w))
      as (-> & -> & _).
    done.
Qed.

Lemma save_refused_on_soft_deleted_id_witness :
  ext_id lamp = EmptyString
  ∧ generate_unique_ext lamp 10 world4 = (Ok "aaaaaaaaaa", set_rng_pos 20 world4)
  ∧ tables world4 (class_of lamp) !! 1 = Some incense4
  ∧ ext_id incense4 = "aaaaaaaaaa"
  ∧ pk lamp = None
  ∧ deleted_at incense4 ≠ None
  ∧ ∃ self' w',
      save (lamp, world4)
      = (Raise (IntegrityError "UNIQUE constraint failed: core_product.ext_id"), (self', w'))
      ∧ ext_id self' = "aaaaaaaaaa"
      ∧ pk self' = None
      ∧ tables w' = tables world4.
Proof.
  assert (Hg : generate_unique_ext lamp 10 world4
               = (Ok "aaaaaaaaaa", set_rng_pos 20 world4)).
  { vm_compute. reflexivity. }
  assert (Hrow : tables world4 (class_of lamp) !! 1 = Some incense4).
  { vm_compute. reflexivity. }
  split; [reflexivity|]. split; [exact Hg|]. split; [exact Hrow|].
  split; [reflexivity|]. split; [reflexivity|].
  exact (save_refused_on_soft_deleted_id lamp world4 "aaaaaaaaaa" _ 1 incense4
           eq_refl Hg Hrow eq_refl eq_refl).
Defined.

(** ** Log entries and the lookups that find them *)

Lemma pretty_N_go_no_N x s :
  (∀ t, s ≠ String (Ascii.ascii_of_nat 78) t) →
  ∀ t, pretty_N_go x s ≠ String (Ascii.ascii_of_nat 78) t.
Proof.
  revert s. induction (N.lt_wf_0 x) as [x _ IH]; intros s Hs t.
  assert (x = 0 ∨ 0 < x)%N as [->|?] by lia.
  - rewrite pretty_N_go_0. apply Hs.
  - rewrite pretty_N_go_step by done. apply IH.
    { by apply N.div_lt. }
    intros t'. unfold pretty_N_char. by repeat case_match.
Qed.

(** The decimal form of a key is never the text [None]. *)
Lemma pretty_nat_not_None (k : nat) : pretty k ≠ "None".
Proof.
  unfold pretty, pretty_nat, pretty, pretty_N. case_decide; [done|].
  apply pretty_N_go_no_N. done.
Qed.

(** X15.  [delete(user=u)] on an instance never saved writes its log entry
    while the instance has no key: the entry's object id is the text
    [None], and once the call has returned and the record has its key,
    [all_logs] on it does not return that entry. *)
Theorem delete_before_first_save_loses_its_entry self w u self' w' :
  pk self = None →
  delete (Some u) (self, w) = (Ok tt, (self', w')) →
  ∃ entry logs,
    log_entries w' = log_entries w ++ [entry]
    ∧ action_flag entry = DELETION
    ∧ object_id entry = Some "None"
    ∧ is_Some (pk self')
    ∧ all_logs (self', w') = (Ok logs, (self', w'))
    ∧ entry ∉ logs.
Proof.
  intros Hpk H. rewrite delete_unfold in H. cbn zeta in H.
  destruct (save_frame _ _ _ _ _ H) as (Hlog & _).
  destruct (save_ok_stored _ _ _ _ _ H eq_refl) as (k & Hk & _).
  eexists _, _. split; [exact Hlog|]. split; [reflexivity|].
  split; [cbn; by rewrite Hpk|]. split; [by rewrite Hk|].
  split; [reflexivity|].
  rewrite merge_sort_Permutation, list_elem_of_filter.
  intros [[_ Hid] _]. cbn in Hid. rewrite Hpk, Hk in Hid. cbn in Hid.
  injection Hid as Hid. by apply (pretty_nat_not_None k).
Qed.

Lemma delete_before_first_save_loses_its_entry_witness :
  pk lamp = None
  ∧ delete (Some curator) (lamp, world1) = (Ok tt, (lamp14, world14))
  ∧ pk lamp14 = Some 2
  ∧ ∃ entry logs,
      log_entries world14 = log_entries world1 ++ [entry]
      ∧ action_flag entry = DELETION
      ∧ object_id entry = Some "None"
      ∧ is_Some (pk lamp14)
      ∧ all_logs (lamp14, world14) = (Ok logs, (lamp14, world14))
      ∧ entry ∉ logs.
Proof.
  assert (Hd : delete (Some curator) (lamp, world1) = (Ok tt, (lamp14, world14))).
  { vm_compute. reflexivity. }
  split; [reflexivity|]. split; [exact Hd|]. split; [reflexivity|].
  exact (delete_before_first_save_loses_its_entry lamp world1 curator
           lamp14 world14 eq_refl Hd).
Defined.

Lemma filter_snoc_True {A} (P : A → Prop) `{∀ x, Decision (P x)} (l : list A) x :
  P x → filter P (l ++ [x]) = filter P l ++ [x].
Proof. intros HP. rewrite filter_app, filter_cons, decide_True by done. done. Qed.

Lemma filter_snoc_False {A} (P : A → Prop) `{∀ x, Decision (P x)} (l : list A) x :
  ¬ P x → filter P (l ++ [x]) = filter P l.
Proof.
  intros HP. rewrite filter_app, filter_cons, decide_False by done.
  by rewrite app_nil_r.
Qed.

Lemma all_logs_unfold self w :
  all_logs (self, w)
  = (Ok (merge_sort action_time_ge
           (filter (λ e, content_type_id e = content_types w (class_of self)
                         ∧ object_id e = pretty <$> pk self)
                   (log_entries w))), (self, w)).
Proof. reflexivity. Qed.

Lemma log_action_with_user u flag message is_admin code self w :
  log_action (Some u) flag message is_admin code (self, w)
  = (Ok tt, (self, logged (entry_for self w u flag
                             ("{'message': " +:+ repr_str (default EmptyString message) +:+
                              ", 'is_admin': " +:+ repr_bool is_admin +:+
                              ", 'code': " +:+ repr_code code +:+ "}")) w)).
Proof. reflexivity. Qed.

(** X16.  An entry that [log_action] writes for a record with a key is found
    by [all_logs] on that record: the listing gains exactly that entry
    and keeps the ones it had. *)
Theorem logged_entry_is_listed self w u flag message is_admin code k :
  pk self = Some k →
  ∃ entry w' logs0 logs,
    log_action (Some u) flag message is_admin code (self, w) = (Ok tt, (self, w'))
    ∧ log_entries w' = log_entries w ++ [entry]
    ∧ action_flag entry = flag ∧ user_id entry = user_pk u
    ∧ all_logs (self, w) = (Ok logs0, (self, w))
    ∧ all_logs (self, w') = (Ok logs, (self, w'))
    ∧ entry ∈ logs
    ∧ logs ≡ₚ entry :: logs0.
Proof.
  intros Hk. eexists _, _, _, _.
  split; [apply log_action_with_user|].
  split; [reflexivity|]. split; [reflexivity|]. split; [reflexivity|].
  split; [apply all_logs_unfold|]. split; [apply all_logs_unfold|].
  unfold logged. cbn [log_entries set_log_entries content_types set_clock].
  rewrite filter_snoc_True; [|cbn; by rewrite Hk].
  rewrite !merge_sort_Permutation. split.
  - apply elem_of_app. right. by apply list_elem_of_singleton.
  - by rewrite Permutation_app_comm.
Qed.

Lemma logged_entry_is_listed_witness :
  pk incense1 = Some 1
  ∧ ∃ entry w' logs0 logs,
      log_action (Some curator) ADDITION (Some "Object created") false None
        (incense1, world1) = (Ok tt, (incense1, w'))
      ∧ log_entries w' = log_entries world1 ++ [entry]
      ∧ action_flag entry = ADDITION ∧ user_id entry = user_pk curator
      ∧ all_logs (incense1, world1) = (Ok logs0, (incense1, world1))
      ∧ all_logs (incense1, w') = (Ok logs, (incense1, w'))
      ∧ entry ∈ logs
      ∧ logs ≡ₚ entry :: logs0.
Proof.
  split; [reflexivity|].
  exact (logged_entry_is_listed incense1 world1 curator ADDITION
           (Some "Object created") false None 1 eq_refl).
Defined.

(** X17.  An entry that [log_action] writes for a record with a key is found
    by [all_logs] on no record with another key, and on none of a class
    with another content type: those listings are as they were. *)
Theorem other_records_entries_are_not_listed
    self other w u flag message is_admin code k k' :
  pk self = Some k →
  pk other = Some k' →
  k ≠ k' ∨ content_types w (class_of self) ≠ content_types w (class_of other) →
  ∃ w',
    log_action (Some u) flag message is_admin code (other, w) = (Ok tt, (other, w'))
    ∧ (all_logs (self, w')).1 = (all_logs (self, w)).1.
Proof.
  intros Hk Hk' Hne. eexists. split; [apply log_action_with_user|].
  rewrite !all_logs_unfold. cbn [fst]. f_equal.
  unfold logged. cbn [log_entries set_log_entries content_types set_clock].
  rewrite filter_snoc_False; [done|].
  cbn. rewrite Hk, Hk'. cbn. intros [Hct [= Hid]].
  destruct Hne as [Hne|Hne]; [|by apply Hne].
  apply Hne. symmetry. by apply (inj pretty).
Qed.

Lemma other_records_entries_are_not_listed_witness :
  pk incense1 = Some 1
  ∧ pk lamp7 = Some 2
  ∧ (1 ≠ 2 ∨ content_types world7 (class_of incense1)
             ≠ content_types world7 (class_of lamp7))
  ∧ ∃ w',
      log_action (Some curator) CHANGE (Some "Price changed") false None
        (lamp7, world7) = (Ok tt, (lamp7, w'))
      ∧ (all_logs (incense1, w')).1 = (all_logs (incense1, world7)).1.
Proof.
  assert (Hne : 1 ≠ 2 ∨ content_types world7 (class_of incense1)
                        ≠ content_types world7 (class_of lamp7)).
  { left. discriminate. }
  split; [reflexivity|]. split; [reflexivity|]. split; [exact Hne|].
  exact (other_records_entries_are_not_listed incense1 lamp7 world7 curator CHANGE
           (Some "Price changed") false None 1 2 eq_refl eq_refl Hne).
Defined.

(** ** The default listing inside the unrestricted one *)

Lemma StronglySorted_filter {A} (R : relation A) (P : A → Prop)
    `{∀ x, Decision (P x)} (l : list A) :
  StronglySorted R l → StronglySorted R (filter P l).
Proof.
  induction 1 as [|x l Hs IH Hall]; [constructor|].
  rewrite filter_cons. case_decide; [|done].
  constructor; [done|].
  rewrite Forall_forall in Hall |- *.
  intros y [_ Hy]%list_elem_of_filter. by apply Hall.
Qed.

Lemma filter_from_db (l : list (nat * Instance)) :
  filter (λ r, deleted_at r = None) (from_db <$> l) = from_db <$> filter active l.
Proof.
  induction l as [|x l IH]; [done|].
  rewrite fmap_cons, !filter_cons, IH.
  change (deleted_at (from_db x) = None) with (active x).
  by destruct (decide (active x)).
Qed.

(** X18.  The default manager lists the records of the unrestricted manager
    that are not soft-deleted, in the same order. *)
Theorem objects_are_the_active_all_objects cls w :
  objects cls w = filter (λ r, deleted_at r = None) (all_objects cls w).
Proof.
  rewrite objects_eq. unfold all_objects. rewrite filter_from_db. f_equal.
  unfold order_by_id.
  apply (StronglySorted_unique_strong id_le).
  - intros [k1 r1] [k2 r2] H1 H2 Hle Hge.
    rewrite merge_sort_Permutation in H1.
    apply list_elem_of_filter in H1 as [_ H1].
    apply list_elem_of_filter in H2 as [_ H2].
    rewrite merge_sort_Permutation in H2.
    unfold table_rows in H1, H2.
    apply elem_of_map_to_list in H1, H2. unfold id_le in Hle, Hge. cbn in Hle, Hge.
    assert (k1 = k2) as -> by lia. congruence.
  - apply StronglySorted_merge_sort; apply _.
  - apply StronglySorted_filter, StronglySorted_merge_sort; apply _.
  - by rewrite !merge_sort_Permutation.
Qed.

(** ** Sequences of calls *)

Lemma run_calls_cons c self cs w :
  run_calls ((c, self) :: cs) w = run_calls cs (call c (self, w)).2.2.
Proof. reflexivity. Qed.

Lemma call_keeps_rows c self w r self' w' :
  call c (self, w) = (r, (self', w')) →
  ∀ cls k, is_Some (tables w cls !! k) → is_Some (tables w' cls !! k).
Proof.
  intros H cls k Hk. apply call_inv in H
    as [(-> & -> & -> & ->)
       |(self0 & w0 & r1 & self1 & w1 & Hs & _ & _ & _ & Ht & _ & _ & Ht' & _)].
  - done.
  - rewrite Ht'. apply (save_keeps_rows _ _ _ _ _ Hs). by rewrite Ht.
Qed.

Lemma call_keeps_unique c self w r self' w' :
  call c (self, w) = (r, (self', w')) →
  ∀ cls, ext_id_unique (tables w cls) → ext_id_unique (tables w' cls).
Proof.
  intros H cls Hu. apply call_inv in H
    as [(-> & -> & -> & ->)
       |(self0 & w0 & r1 & self1 & w1 & Hs & _ & _ & _ & Ht & _ & _ & Ht' & _)].
  - done.
  - rewrite Ht'. apply (save_keeps_unique _ _ _ _ _ Hs). by rewrite Ht.
Qed.

(** X19.  No sequence of [save], [delete] and [restore] calls, on whatever
    instances and with whatever outcomes, removes a row: a key in use
    stays in use. *)
Theorem no_call_sequence_removes_a_row cs w cls k :
  is_Some (tables w cls !! k) →
  is_Some (tables (run_calls cs w) cls !! k).
Proof.
  revert w. induction cs as [|[c self] cs IH]; intros w Hk; [done|].
  rewrite run_calls_cons. apply IH.
  destruct (call c (self, w)) as [r [self' w']] eqn:Hc.
  exact (call_keeps_rows _ _ _ _ _ _ Hc cls k Hk).
Qed.

Lemma no_call_sequence_removes_a_row_witness :
  is_Some (tables world1 Product !! 1)
  ∧ is_Some (tables (run_calls [(CallDelete (Some curator), incense1);
                                (CallSave, lamp);
                                (CallRestore, forged)] world1) Product !! 1).
Proof.
  assert (H : is_Some (tables world1 Product !! 1)).
  { exists incense1. vm_compute. reflexivity. }
  split; [exact H|].
  exact (no_call_sequence_removes_a_row _ world1 Product 1 H).
Defined.

(** X20.  The log is append-only under every sequence of calls: the entries
    it had are still there, in place, before any new one. *)
Theorem the_log_is_append_only cs w :
  log_entries w `prefix_of` log_entries (run_calls cs w).
Proof.
  revert w. induction cs as [|[c self] cs IH]; intros w; [done|].
  rewrite run_calls_cons.
  destruct (call c (self, w)) as [r [self' w']] eqn:Hc.
  etrans; [exact (call_extends_log _ _ _ _ _ _ Hc)|]. apply IH.
Qed.

(** X21.  Every sequence of calls keeps the external ids of each table
    pairwise distinct; in particular they are so in every database
    reached from empty tables. *)
Theorem call_sequences_keep_ext_ids_distinct cs w :
  (∀ cls, ext_id_unique (tables w cls)) →
  ∀ cls, ext_id_unique (tables (run_calls cs w) cls).
Proof.
  revert w. induction cs as [|[c self] cs IH]; intros w Hu; [done|].
  rewrite run_calls_cons. apply IH. intros cls.
  destruct (call c (self, w)) as [r [self' w']] eqn:Hc.
  exact (call_keeps_unique _ _ _ _ _ _ Hc cls (Hu cls)).
Qed.

Lemma call_sequences_keep_ext_ids_distinct_witness :
  (∀ cls, ext_id_unique (tables world0 cls))
  ∧ ∀ cls, ext_id_unique
             (tables (run_calls [(CallSave, incense); (CallSave, belur);
                                 (CallSave, lamp)] world0) cls).
Proof.
  assert (H0 : ∀ cls, ext_id_unique (tables world0 cls)).
  { intros cls. apply ext_id_unique_empty. }
  split; [exact H0|].
  exact (call_sequences_keep_ext_ids_distinct _ world0 H0).
Defined.
